(** * The collection-cycle orchestrator of the agent (checks/collector.py)

    A shallow embedding of [AgentPayload] and [Collector]: the two-map
    payload with its key routing and emission, the periodic gate, the
    host-metadata population and the collection cycle [Collector.run].

    Conventions of the embedding.
    - A Python call that may raise returns an [outcome]; mutations made
      before the exception stay in the state, as in Python.
    - [exn] stands for the instances of Python's [Exception] class, which
      is what the source's [except Exception] clauses catch.
    - Timestamps and durations ([time.time()], [Timer.step()]) are clock
      ticks in [Z]; what the clock reads is an input of the model.
    - What the collaborators outside this file do in a cycle (sources,
      emitters, cloud providers, the inventory command) is an input too:
      each call's result is a field of the collaborator's record. *)

From Stdlib Require Import ZArith Ascii.
From stdpp Require Import gmap strings list fin_maps pretty.

Set Warnings "-register-all".

(** ** Python values, exceptions, outcomes *)

(** The three containers that [Collector.run] holds in local variables
    while the payload refers to the same objects. *)
Inductive cell := Metrics | Events | ServiceChecks.

Inductive value :=
| VNone
| VBool (b : bool)
| VNum (n : Z)
| VStr (s : string)
| VList (l : list value)
| VTuple (l : list value)
| VDict (d : gmap string value)
| VRef (c : cell).

Inductive exn :=
| OSError (errno : Z)
| KeyError (key : string)
| IndexError
| TypeError
| AttributeError (attr : string)
| UnboundLocalError (var : string)
| Exception (msg : string).

Inductive outcome (A : Type) :=
| Done (a : A)
| Raised (e : exn).
Arguments Done {A} a.
Arguments Raised {A} e.

(** Python truthiness of the values the source tests with [if x:]. *)
Definition truthy (v : value) : bool :=
  match v with
  | VNone => false
  | VBool b => b
  | VNum n => negb (n =? 0)%Z
  | VStr s => negb (String.eqb s "")
  | VList l | VTuple l => match l with [] => false | _ => true end
  | VDict d => negb (bool_decide (d = ∅))
  | VRef _ => true
  end.

(** ** Status records (checks/check_status.py is outside this file) *)

Inductive status_label := STATUS_OK | STATUS_WARNING | STATUS_ERROR.

Module InstanceStatus.
Record t := {
  instance_id : Z;
  status : status_label;
  error : option string;
  warnings : list string
}.
End InstanceStatus.

Module CheckStatus.
(** The arguments of the constructor, kept as attributes. The counts and
    the instance statuses are [None] for a source that failed to
    initialise. *)
Record t := {
  name : string;
  instance_statuses : option (list InstanceStatus.t);
  metric_count : option nat;
  event_count : option nat;
  service_check_count : option nat;
  service_metadata : value;
  init_failed_error : option value;
  init_failed_traceback : option value;
  library_versions : value;
  source_type_name : option string;
  check_stats : value
}.

(** Modelled from the spec: the derived [status] property of the class
    [CheckStatus], whose module is not under src/: the overall status is
    ERROR if any instance reports ERROR, else OK. *)
Definition status (self : t) : status_label :=
  match instance_statuses self with
  | Some l =>
      if existsb (fun i => match InstanceStatus.status i with
                           | STATUS_ERROR => true
                           | _ => false
                           end) l
      then STATUS_ERROR else STATUS_OK
  | None => STATUS_OK
  end.

(** [check_status.service_check_count = n] *)
Definition set_service_check_count (n : nat) (self : t) : t :=
  {| name := name self;
     instance_statuses := instance_statuses self;
     metric_count := metric_count self;
     event_count := event_count self;
     service_check_count := Some n;
     service_metadata := service_metadata self;
     init_failed_error := init_failed_error self;
     init_failed_traceback := init_failed_traceback self;
     library_versions := library_versions self;
     source_type_name := source_type_name self;
     check_stats := check_stats self |}.
End CheckStatus.

Module EmitterStatus.
(** [EmitterStatus(name)] has no error, [EmitterStatus(name, e)] has [e]. *)
Record t := {
  name : string;
  error : option exn
}.
End EmitterStatus.

(** ** Observable effects of a cycle *)

Inductive level := DEBUG | INFO | WARNING | EXCEPTION.

Inductive event :=
| Log (lvl : level) (msg : string)
| EmitterCall (name : string) (payload : gmap string value) (endpoint : string)
| SourceRun (name : string)
| SetMetricContext (collection_time : Z) (emit_time : option Z) (cpu_time : option Z)
| Persist (checks : list CheckStatus.t) (emitters : list EmitterStatus.t)
          (hostname_metadata : value).

Definition is_emitter_call (ev : event) : bool :=
  match ev with EmitterCall _ _ _ => true | _ => false end.

Definition started (name : string) (ev : event) : bool :=
  match ev with SourceRun n => String.eqb name n | _ => false end.

Definition is_persist (ev : event) : bool :=
  match ev with Persist _ _ _ => true | _ => false end.

(** An emitter is a callable with a [__name__]; calling it with a payload
    and an endpoint either returns or raises. *)
Record Emitter := {
  __name__ : string;
  emitter_call : gmap string value -> string -> option exn
}.

(** ** AgentPayload *)

Module AgentPayload.

Definition METADATA_KEYS : gset string :=
  {[ "meta"; "tags"; "host-tags"; "systemStats";
     "agent_checks"; "gohai"; "external_host_tags" ]}.

Definition DUPLICATE_KEYS : gset string := {[ "agentKey"; "agentVersion" ]}.

Definition COMMON_ENDPOINT : string := "".
Definition DATA_ENDPOINT : string := "metrics".
Definition METADATA_ENDPOINT : string := "metadata".

Record t := {
  data_payload : gmap string value;
  meta_payload : gmap string value
}.

Definition __init__ : t := {| data_payload := ∅; meta_payload := ∅ |}.

(** [res = self.data_payload.copy(); res.update(self.meta_payload)] *)
Definition payload (self : t) : gmap string value :=
  meta_payload self ∪ data_payload self.

(** [d[key]] and [del d[key]] on a dict. *)
Definition dict_getitem (key : string) (d : gmap string value) : outcome value :=
  match d !! key with
  | Some v => Done v
  | None => Raised (KeyError key)
  end.

Definition dict_delitem (key : string) (d : gmap string value)
  : outcome (gmap string value) :=
  match d !! key with
  | Some _ => Done (delete key d)
  | None => Raised (KeyError key)
  end.

Definition __getitem__ (key : string) (self : t) : outcome value :=
  if decide (key ∈ METADATA_KEYS) then dict_getitem key (meta_payload self)
  else dict_getitem key (data_payload self).

Definition __setitem__ (key : string) (v : value) (self : t) : t :=
  if decide (key ∈ DUPLICATE_KEYS) then
    {| data_payload := <[key := v]> (data_payload self);
       meta_payload := <[key := v]> (meta_payload self) |}
  else if decide (key ∈ METADATA_KEYS) then
    {| data_payload := data_payload self;
       meta_payload := <[key := v]> (meta_payload self) |}
  else
    {| data_payload := <[key := v]> (data_payload self);
       meta_payload := meta_payload self |}.

(** The payload after [del self[key]], with what the statement did. *)
Definition __delitem__ (key : string) (self : t) : outcome unit * t :=
  if decide (key ∈ DUPLICATE_KEYS) then
    match dict_delitem key (data_payload self) with
    | Raised e => (Raised e, self)
    | Done d =>
        match dict_delitem key (meta_payload self) with
        | Raised e =>
            (Raised e, {| data_payload := d; meta_payload := meta_payload self |})
        | Done m => (Done tt, {| data_payload := d; meta_payload := m |})
        end
    end
  else if decide (key ∈ METADATA_KEYS) then
    match dict_delitem key (meta_payload self) with
    | Raised e => (Raised e, self)
    | Done m => (Done tt, {| data_payload := data_payload self; meta_payload := m |})
    end
  else
    match dict_delitem key (data_payload self) with
    | Raised e => (Raised e, self)
    | Done d => (Done tt, {| data_payload := d; meta_payload := meta_payload self |})
    end.

(** A writing use of the mapping interface, and a sequence of them on a
    new payload; a [del] that raises leaves what it had done. *)
Inductive op :=
| SetItem (key : string) (v : value)
| DelItem (key : string).

Definition apply_op (self : t) (o : op) : t :=
  match o with
  | SetItem key v => __setitem__ key v self
  | DelItem key => (__delitem__ key self).2
  end.

Definition apply_ops (ops : list op) : t := foldl apply_op __init__ ops.

(** The two maps hold the same entry, or none, for every duplicate key. *)
Definition agree (self : t) : Prop :=
  forall key, key ∈ DUPLICATE_KEYS ->
    data_payload self !! key = meta_payload self !! key.

Definition __len__ (self : t) : nat :=
  size (data_payload self) + size (meta_payload self).

(** [MutableMapping.update]: one [__setitem__] per entry. *)
Definition update (items : list (string * value)) (self : t) : t :=
  foldl (fun p kv => __setitem__ kv.1 kv.2 p) self items.

(** The loop of the inner function [_emit_payload]: [statuses] is the
    list collected so far; the result pairs the returned list with the
    effects of the loop, in order. *)
Fixpoint _emit_loop (continue_running : bool) (payload : gmap string value)
    (endpoint : string) (emitters : list Emitter) (statuses : list EmitterStatus.t)
  : list EmitterStatus.t * list event :=
  match emitters with
  | [] => (statuses, [])
  | emitter :: rest =>
      if negb continue_running then (statuses, [])
      else
        let name := __name__ emitter in
        let '(emitter_status, evs) :=
          match emitter_call emitter payload endpoint with
          | None =>
              ({| EmitterStatus.name := name; EmitterStatus.error := None |},
               [EmitterCall name payload endpoint])
          | Some e =>
              ({| EmitterStatus.name := name; EmitterStatus.error := Some e |},
               [EmitterCall name payload endpoint;
                Log EXCEPTION ("Error running emitter: " +:+ __name__ emitter)])
          end in
        let '(res, evs') :=
          _emit_loop continue_running payload endpoint rest
                     (statuses ++ [emitter_status]) in
        (res, evs ++ evs')
  end.

Definition _emit_payload (emitters : list Emitter) (continue_running : bool)
    (payload : gmap string value) (endpoint : string)
  : list EmitterStatus.t * list event :=
  _emit_loop continue_running payload endpoint emitters [].

(** What one emitter contributes when it is invoked: its status, and the
    call followed by the log entry of its failure, if any. *)
Definition status_of (payload : gmap string value) (endpoint : string)
    (emitter : Emitter) : EmitterStatus.t :=
  {| EmitterStatus.name := __name__ emitter;
     EmitterStatus.error := emitter_call emitter payload endpoint |}.

Definition call_of (payload : gmap string value) (endpoint : string)
    (emitter : Emitter) : event :=
  EmitterCall (__name__ emitter) payload endpoint.

Definition events_of (payload : gmap string value) (endpoint : string)
    (emitter : Emitter) : list event :=
  call_of payload endpoint emitter ::
  match emitter_call emitter payload endpoint with
  | None => []
  | Some _ => [Log EXCEPTION ("Error running emitter: " +:+ __name__ emitter)]
  end.


Definition emit (self : t) (emitters : list Emitter) (continue_running : bool)
    (merge_payloads : bool) : list EmitterStatus.t * list event :=
  if merge_payloads then
    let '(s, evs) :=
      _emit_payload emitters continue_running (payload self) COMMON_ENDPOINT in
    ([] ++ s, evs)
  else
    let '(s1, evs1) :=
      _emit_payload emitters continue_running (data_payload self) DATA_ENDPOINT in
    let '(s2, evs2) :=
      _emit_payload emitters continue_running (meta_payload self) METADATA_ENDPOINT in
    (([] ++ s1) ++ s2, evs1 ++ evs2).

(** [__iter__]: the keys of the data map, then those of the metadata map. *)
Definition __iter__ (self : t) : list string :=
  (map_to_list (data_payload self)).*1 ++ (map_to_list (meta_payload self)).*1.

(** What the mapping interface keeps: a metadata key is never in the data
    map, and the metadata map holds metadata and duplicate keys only. *)
Definition routed (self : t) : Prop :=
  (∀ key, is_Some (data_payload self !! key) → key ∉ METADATA_KEYS)
  ∧ (∀ key, is_Some (meta_payload self !! key) →
       key ∈ METADATA_KEYS ∨ key ∈ DUPLICATE_KEYS).

End AgentPayload.

(** ** Collaborators of the collector *)

(** [AgentCheck.OK] and [AgentCheck.CRITICAL]. *)
Inductive sc_status := OK | CRITICAL.

(** A checks.d source. Each field is what the method returns, or the
    exception it raises, when the cycle calls it. [stop_requested] says
    that [Collector.stop] is called while the source's collection runs
    (the process is being killed); [started_at], [finished_at] and
    [stamped_at] are the three clock readings the loop takes around it. *)
Module Check.
Record t := {
  name : string;
  SOURCE_TYPE_NAME : option string;
  run : outcome (list InstanceStatus.t);
  get_metrics : outcome (list value);
  get_events : outcome (list value);
  _get_internal_profiling_stats : outcome value;
  get_service_metadata : outcome value;
  get_library_info : outcome value;
  service_check : sc_status -> outcome unit;
  get_service_checks : sc_status -> outcome (list value);
  get_external_host_tags : outcome (list value);
  set_metric_context : outcome unit;
  stop_requested : bool;
  started_at : Z;
  finished_at : Z;
  stamped_at : Z
}.
End Check.

(** An entry of [init_failed_checks_d]: [{error, traceback}]. *)
Module InitFailure.
Record t := {
  error : value;
  traceback : value
}.
End InitFailure.

(** A resource source ([resources.processes.Processes] and the like). *)
Module ResourceCheck.
Record t := {
  RESOURCE_KEY : string;
  check : outcome unit;
  pop_snapshots : outcome (list value);
  get_format_version : outcome value;
  describe_format_if_needed : outcome value
}.
End ResourceCheck.

(** The system sources and the old-style sources: what [check(agentConfig)]
    returns in the cycle. A dict that the source folds into the payload
    with [update] is given as its list of items. *)
Record SystemChecks := {
  win32_memory : outcome (list value);
  win32_cpu : outcome (list value);
  win32_network : outcome (list value);
  win32_io : outcome (list value);
  win32_proc : outcome (list value);
  sd_networkTraffic : outcome (list (string * value));
  sd_cpuStats : outcome (list (string * value));
  sd_identifier : outcome (list (string * value));
  unix_load : outcome (list (string * value));
  unix_system : outcome (list (string * value));
  unix_memory : outcome (gmap string value);
  unix_io : outcome value;
  unix_processes : outcome value;
  unix_cpu : outcome (list (string * value));
  ganglia : outcome value;
  dogstream : outcome (gmap string value);
  ddforwarder : outcome value
}.

(** The entries of [agentConfig] that the collector reads. *)
Record Config := {
  version : value;
  agent_key : value;
  tags : option string;
  collect_ec2_tags : bool;
  create_dd_check_tags : bool;
  developer_mode : bool;
  config_hostname : option string;
  config_check_timings : bool;
  metadata_interval : option Z;
  external_host_tags : option Z;
  agent_checks_interval : option Z;
  dd_check_tags_interval : option Z
}.

(** What lies outside the collector in one cycle: imported constants and
    helpers, the clock, the inventory command, the cloud providers and the
    status sink. *)
Record World := {
  AGENT_METRICS_CHECK_NAME : string;
  create_service_check : string -> sc_status -> string -> value;
  py_repr : value -> string;
  py_str : value -> string;
  status_value : status_label -> value;
  str_exn : exn -> string;
  sys_version : value;
  get_uuid : value;
  get_version : string;
  get_os : string;
  now_build_payload : Z;
  now_populate : Z;
  now_host_metadata : Z;
  now_external_host_tags : Z;
  now_agent_checks : Z;
  now_dd_check_tags : Z;
  timer_collect : Z;
  timer_emit : Z;
  cpu_time : Z;
  popen_communicate : string -> outcome (value * value);
  get_system_stats : outcome value;
  EC2_get_metadata : outcome (gmap string value);
  EC2_get_tags : outcome (list value);
  GCE_get_tags : outcome value;
  GCE_SOURCE_TYPE_NAME : string;
  GCE_get_host_aliases : outcome value;
  socket_gethostname : outcome value;
  socket_getfqdn : outcome value;
  get_hostname : outcome value;
  get_jmx_appnames : outcome (list string);
  pformat : list value -> string;
  persist : list CheckStatus.t -> list EmitterStatus.t -> value -> outcome unit
}.

(** ** Collector: state *)

Module Collector.

Definition FLUSH_LOGGING_PERIOD : nat := 10.
Definition FLUSH_LOGGING_INITIAL : nat := 5.
Definition DD_CHECK_TAG (check_name : string) : string := "dd_check:" +:+ check_name.

(** An entry of [push_times]: [{'start': ..., 'interval': ...}]. *)
Record Gate := {
  start : Z;
  interval : Z
}.

(** The attributes of a [Collector]. [sources] gathers the system and
    old-style sources that [__init__] builds. *)
Record t := {
  emit_duration : option Z;
  agentConfig : Config;
  system_stats : value;
  hostname : string;
  os : string;
  emitters : list Emitter;
  check_timings : bool;
  push_times : gmap string Gate;
  run_count : nat;
  continue_running : bool;
  hostname_metadata_cache : value;
  initialized_checks_d : list Check.t;
  init_failed_checks_d : list (string * InitFailure.t);
  sources : SystemChecks;
  _agent_metrics : option Check.t;
  _metrics_checks : list (outcome (list value));
  _resources_checks : list ResourceCheck.t
}.

(** The local variables of [run] that outlive a statement: the payload,
    the three containers it shares with the payload, the list of check
    statuses and the locals of the checks.d loop. [None] in
    [current_check_metadata] and in [status] is a name not bound yet. *)
Record Frame := {
  payload : AgentPayload.t;
  metrics : list value;
  events : gmap string value;
  service_checks : list value;
  check_statuses : list CheckStatus.t;
  instance_statuses : list InstanceStatus.t;
  metric_count : nat;
  event_count : nat;
  service_check_count : nat;
  check_stats : value;
  current_check_metadata : option value;
  status : option sc_status
}.

Record State := {
  self : t;
  locals : Frame;
  trace : list event
}.

Definition empty_frame : Frame :=
  {| payload := AgentPayload.__init__; metrics := []; events := ∅;
     service_checks := []; check_statuses := []; instance_statuses := [];
     metric_count := 0; event_count := 0; service_check_count := 0;
     check_stats := VNone; current_check_metadata := None; status := None |}.

(** *** Assignments to attributes and locals *)

Definition with_self (f : t -> t) (st : State) : State :=
  {| self := f (self st); locals := locals st; trace := trace st |}.

Definition with_locals (f : Frame -> Frame) (st : State) : State :=
  {| self := self st; locals := f (locals st); trace := trace st |}.

Definition with_trace (f : list event -> list event) (st : State) : State :=
  {| self := self st; locals := locals st; trace := f (trace st) |}.

Section Setters.
Variable c : t.
Let mk ed pt rc cr hc ic fc am : t :=
  {| emit_duration := ed; agentConfig := agentConfig c;
     system_stats := system_stats c; hostname := hostname c; os := os c;
     emitters := emitters c; check_timings := check_timings c;
     push_times := pt; run_count := rc; continue_running := cr;
     hostname_metadata_cache := hc; initialized_checks_d := ic;
     init_failed_checks_d := fc; sources := sources c;
     _agent_metrics := am; _metrics_checks := _metrics_checks c;
     _resources_checks := _resources_checks c |}.

Definition set_emit_duration (v : option Z) : t :=
  mk v (push_times c) (run_count c) (continue_running c)
     (hostname_metadata_cache c) (initialized_checks_d c)
     (init_failed_checks_d c) (_agent_metrics c).
Definition set_push_times (v : gmap string Gate) : t :=
  mk (emit_duration c) v (run_count c) (continue_running c)
     (hostname_metadata_cache c) (initialized_checks_d c)
     (init_failed_checks_d c) (_agent_metrics c).
Definition set_run_count (v : nat) : t :=
  mk (emit_duration c) (push_times c) v (continue_running c)
     (hostname_metadata_cache c) (initialized_checks_d c)
     (init_failed_checks_d c) (_agent_metrics c).
Definition set_continue_running (v : bool) : t :=
  mk (emit_duration c) (push_times c) (run_count c) v
     (hostname_metadata_cache c) (initialized_checks_d c)
     (init_failed_checks_d c) (_agent_metrics c).
Definition set_hostname_metadata_cache (v : value) : t :=
  mk (emit_duration c) (push_times c) (run_count c) (continue_running c)
     v (initialized_checks_d c) (init_failed_checks_d c) (_agent_metrics c).
Definition set_initialized_checks_d (v : list Check.t) : t :=
  mk (emit_duration c) (push_times c) (run_count c) (continue_running c)
     (hostname_metadata_cache c) v (init_failed_checks_d c) (_agent_metrics c).
Definition set_init_failed_checks_d (v : list (string * InitFailure.t)) : t :=
  mk (emit_duration c) (push_times c) (run_count c) (continue_running c)
     (hostname_metadata_cache c) (initialized_checks_d c) v (_agent_metrics c).
Definition set__agent_metrics (v : option Check.t) : t :=
  mk (emit_duration c) (push_times c) (run_count c) (continue_running c)
     (hostname_metadata_cache c) (initialized_checks_d c)
     (init_failed_checks_d c) v.
End Setters.

Section FrameSetters.
Variable f : Frame.
Let mk p m e s cs ist mc ec scc st md sta : Frame :=
  {| payload := p; metrics := m; events := e; service_checks := s;
     check_statuses := cs; instance_statuses := ist; metric_count := mc;
     event_count := ec; service_check_count := scc; check_stats := st;
     current_check_metadata := md; status := sta |}.

Definition set_payload (v : AgentPayload.t) : Frame :=
  mk v (metrics f) (events f) (service_checks f) (check_statuses f)
     (instance_statuses f) (metric_count f) (event_count f)
     (service_check_count f) (check_stats f) (current_check_metadata f) (status f).
Definition set_metrics (v : list value) : Frame :=
  mk (payload f) v (events f) (service_checks f) (check_statuses f)
     (instance_statuses f) (metric_count f) (event_count f)
     (service_check_count f) (check_stats f) (current_check_metadata f) (status f).
Definition set_events (v : gmap string value) : Frame :=
  mk (payload f) (metrics f) v (service_checks f) (check_statuses f)
     (instance_statuses f) (metric_count f) (event_count f)
     (service_check_count f) (check_stats f) (current_check_metadata f) (status f).
Definition set_service_checks (v : list value) : Frame :=
  mk (payload f) (metrics f) (events f) v (check_statuses f)
     (instance_statuses f) (metric_count f) (event_count f)
     (service_check_count f) (check_stats f) (current_check_metadata f) (status f).
Definition set_check_statuses (v : list CheckStatus.t) : Frame :=
  mk (payload f) (metrics f) (events f) (service_checks f) v
     (instance_statuses f) (metric_count f) (event_count f)
     (service_check_count f) (check_stats f) (current_check_metadata f) (status f).
Definition set_instance_statuses (v : list InstanceStatus.t) : Frame :=
  mk (payload f) (metrics f) (events f) (service_checks f) (check_statuses f)
     v (metric_count f) (event_count f)
     (service_check_count f) (check_stats f) (current_check_metadata f) (status f).
Definition set_metric_count (v : nat) : Frame :=
  mk (payload f) (metrics f) (events f) (service_checks f) (check_statuses f)
     (instance_statuses f) v (event_count f)
     (service_check_count f) (check_stats f) (current_check_metadata f) (status f).
Definition set_event_count (v : nat) : Frame :=
  mk (payload f) (metrics f) (events f) (service_checks f) (check_statuses f)
     (instance_statuses f) (metric_count f) v
     (service_check_count f) (check_stats f) (current_check_metadata f) (status f).
Definition set_service_check_count (v : nat) : Frame :=
  mk (payload f) (metrics f) (events f) (service_checks f) (check_statuses f)
     (instance_statuses f) (metric_count f) (event_count f)
     v (check_stats f) (current_check_metadata f) (status f).
Definition set_check_stats (v : value) : Frame :=
  mk (payload f) (metrics f) (events f) (service_checks f) (check_statuses f)
     (instance_statuses f) (metric_count f) (event_count f)
     (service_check_count f) v (current_check_metadata f) (status f).
Definition set_current_check_metadata (v : option value) : Frame :=
  mk (payload f) (metrics f) (events f) (service_checks f) (check_statuses f)
     (instance_statuses f) (metric_count f) (event_count f)
     (service_check_count f) (check_stats f) v (status f).
Definition set_status (v : option sc_status) : Frame :=
  mk (payload f) (metrics f) (events f) (service_checks f) (check_statuses f)
     (instance_statuses f) (metric_count f) (event_count f)
     (service_check_count f) (check_stats f) (current_check_metadata f) v.
End FrameSetters.

(** *** The monad of the collector's methods: state and exceptions *)

Definition M (A : Type) : Type := State -> outcome A * State.

Definition ret {A} (a : A) : M A := fun st => (Done a, st).

Definition bind {A B} (m : M A) (k : A -> M B) : M B :=
  fun st =>
    match m st with
    | (Done a, st') => k a st'
    | (Raised e, st') => (Raised e, st')
    end.

Definition raise {A} (e : exn) : M A := fun st => (Raised e, st).

(** [try: body except ...: handler]; an exception raised by the handler
    itself propagates. *)
Definition try_except {A} (body : M A) (handler : exn -> M A) : M A :=
  fun st =>
    match body st with
    | (Done a, st') => (Done a, st')
    | (Raised e, st') => handler e st'
    end.

(** A call to a collaborator. *)
Definition call {A} (r : outcome A) : M A := fun st => (r, st).

Definition gets {A} (f : State -> A) : M A := fun st => (Done (f st), st).
Definition modify (f : State -> State) : M unit := fun st => (Done tt, f st).
Definition tell (ev : event) : M unit := modify (with_trace (fun tr => tr ++ [ev])).
Definition tells (evs : list event) : M unit := modify (with_trace (fun tr => tr ++ evs)).
Definition log (lvl : level) (msg : string) : M unit := tell (Log lvl msg).
Definition assign (f : Frame -> Frame) : M unit := modify (with_locals f).
Definition assign_self (f : t -> t) : M unit := modify (with_self f).
Definition when (b : bool) (m : M unit) : M unit := if b then m else ret tt.

Declare Scope py_scope.
Delimit Scope py_scope with py.
Notation "x <- m ;; k" := (bind m (fun x => k))
  (at level 100, m at next level, right associativity) : py_scope.
Notation "m ;; k" := (bind m (fun _ => k))
  (at level 100, right associativity) : py_scope.
Local Open Scope py_scope.


(** ** Collector: the payload and the containers it shares with [run] *)

Definition nonempty {A} (l : list A) : bool :=
  match l with [] => false | _ => true end.

(** [payload[key]], [payload[key] = v] and [payload.update(items)]. *)
Definition payload_getitem (key : string) : M value :=
  p <- gets (fun st => payload (locals st)) ;;
  call (AgentPayload.__getitem__ key p).

Definition payload_setitem (key : string) (v : value) : M unit :=
  assign (fun f => set_payload f (AgentPayload.__setitem__ key v (payload f))).

Definition payload_update (items : list (string * value)) : M unit :=
  assign (fun f => set_payload f (AgentPayload.update items (payload f))).

(** The object a value denotes: a reference denotes the container that
    [run] holds in the local of that name. *)
Definition load (v : value) : M value :=
  match v with
  | VRef Metrics => gets (fun st => VList (metrics (locals st)))
  | VRef Events => gets (fun st => VDict (events (locals st)))
  | VRef ServiceChecks => gets (fun st => VList (service_checks (locals st)))
  | _ => ret v
  end.

(** A container stored in the payload itself is mutated where
    [payload[key]] finds it. Used for keys outside [DUPLICATE_KEYS]. *)
Definition store_back (key : string) (v : value) : M unit :=
  assign (fun f =>
    let p := payload f in
    set_payload f
      (if decide (key ∈ AgentPayload.METADATA_KEYS) then
         {| AgentPayload.data_payload := AgentPayload.data_payload p;
            AgentPayload.meta_payload := <[key := v]> (AgentPayload.meta_payload p) |}
       else
         {| AgentPayload.data_payload := <[key := v]> (AgentPayload.data_payload p);
            AgentPayload.meta_payload := AgentPayload.meta_payload p |})).

Definition is_str (s : string) (v : value) : bool :=
  match v with VStr s' => String.eqb s s' | _ => false end.

Fixpoint is_substring (s big : string) : bool :=
  String.prefix s big ||
  match big with
  | EmptyString => false
  | String _ rest => is_substring s rest
  end.

(** [sub in v] for a string [sub]. *)
Definition contains (sub : string) (v : value) : outcome bool :=
  match v with
  | VDict d => Done (bool_decide (is_Some (d !! sub)))
  | VList l | VTuple l => Done (existsb (is_str sub) l)
  | VStr s => Done (is_substring sub s)
  | _ => Raised TypeError
  end.

(** [sub in payload[key]] *)
Definition payload_item_contains (key sub : string) : M bool :=
  o <- payload_getitem key ;;
  v <- load o ;;
  call (contains sub v).

(** [payload[key][sub] = v] *)
Definition payload_item_setitem (key sub : string) (v : value) : M unit :=
  o <- payload_getitem key ;;
  match o with
  | VRef Events => assign (fun f => set_events f (<[sub := v]> (events f)))
  | VDict d => store_back key (VDict (<[sub := v]> d))
  | _ => raise TypeError
  end.

(** [payload[key].extend(items)] *)
Definition payload_item_extend (key : string) (items : list value) : M unit :=
  o <- payload_getitem key ;;
  match o with
  | VRef Metrics => assign (fun f => set_metrics f (metrics f ++ items))
  | VRef ServiceChecks =>
      assign (fun f => set_service_checks f (service_checks f ++ items))
  | VList l => store_back key (VList (l ++ items))
  | _ => raise (AttributeError "extend")
  end.

(** [payload[key][sub].extend(items)] *)
Definition payload_item_item_extend (key sub : string) (items : list value)
  : M unit :=
  o <- payload_getitem key ;;
  match o with
  | VRef Events =>
      evs <- gets (fun st => events (locals st)) ;;
      match evs !! sub with
      | Some (VList l) =>
          assign (fun f => set_events f (<[sub := VList (l ++ items)]> (events f)))
      | Some _ => raise (AttributeError "extend")
      | None => raise (KeyError sub)
      end
  | VDict d =>
      match d !! sub with
      | Some (VList l) => store_back key (VDict (<[sub := VList (l ++ items)]> d))
      | Some _ => raise (AttributeError "extend")
      | None => raise (KeyError sub)
      end
  | _ => raise TypeError
  end.

(** [metrics.extend(l)], [metrics.append(v)], [service_checks.extend(l)],
    [service_checks.append(v)] on the locals of [run]. *)
Definition metrics_extend (l : list value) : M unit :=
  assign (fun f => set_metrics f (metrics f ++ l)).
Definition metrics_append (v : value) : M unit :=
  assign (fun f => set_metrics f (metrics f ++ [v])).
Definition service_checks_extend (l : list value) : M unit :=
  assign (fun f => set_service_checks f (service_checks f ++ l)).
Definition service_checks_append (v : value) : M unit :=
  assign (fun f => set_service_checks f (service_checks f ++ [v])).

(** [events[key] = v] on the local of [run]. *)
Definition events_setitem (key : string) (v : value) : M unit :=
  assign (fun f => set_events f (<[key := v]> (events f))).

(** [l.extend(items)] and [l += items] give the list with the items
    appended; the events of a source are a list by its interface, and
    another value has no such operation. *)
Definition extended (old : value) (items : value) : outcome value :=
  match old, items with
  | VList l, VList new => Done (VList (l ++ new))
  | VList _, _ => Raised TypeError
  | _, _ => Raised (AttributeError "extend")
  end.

Definition iadd (old : value) (items : list value) : outcome value :=
  match old with
  | VList l => Done (VList (l ++ items))
  | _ => Raised TypeError
  end.

(** ** Collector: the periodic gate *)

Definition _is_first_run : M bool :=
  gets (fun st => Nat.leb (run_count (self st)) 1).

(** [now] is what [time.time()] reads when the method calls it. The
    method returns [True], or [False] when the interval has not passed. *)
Definition _should_send_additional_data (now : Z) (data_name : string) : M value :=
  first <- _is_first_run ;;
  if first then ret (VBool true)
  else
    pt <- gets (fun st => push_times (self st)) ;;
    match pt !! data_name with
    | None => raise (KeyError data_name)
    | Some g =>
        if (interval g <=? now - start g)%Z then
          log DEBUG (data_name +:+ " interval has passed. Sending it.") ;;
          assign_self (fun c =>
            set_push_times c
              (<[data_name := {| start := now; interval := interval g |}]>
                 (push_times c))) ;;
          ret (VBool true)
        else ret (VBool false)
    end.

(** ** Collector: the payload skeleton *)

Definition _build_payload (w : World) : M unit :=
  let now := now_build_payload w in
  c <- gets self ;;
  payload_setitem "collection_timestamp" (VNum now) ;;
  payload_setitem "os" (VStr (os c)) ;;
  payload_setitem "python" (sys_version w) ;;
  payload_setitem "agentVersion" (version (agentConfig c)) ;;
  payload_setitem "agentKey" (agent_key (agentConfig c)) ;;
  assign (fun f => set_events f ∅) ;;
  payload_setitem "events" (VRef Events) ;;
  assign (fun f => set_metrics f []) ;;
  payload_setitem "metrics" (VRef Metrics) ;;
  assign (fun f => set_service_checks f []) ;;
  payload_setitem "service_checks" (VRef ServiceChecks) ;;
  payload_setitem "resources" (VDict ∅) ;;
  payload_setitem "internalHostname" (VStr (hostname c)) ;;
  payload_setitem "uuid" (get_uuid w) ;;
  payload_setitem "host-tags" (VDict ∅) ;;
  payload_setitem "external_host_tags" (VDict ∅).

(** ** Collector: the sources of a cycle *)

(** The system checks, chosen by the OS. *)
Definition run_system_checks : M unit :=
  c <- gets self ;;
  let src := sources c in
  if String.eqb (os c) "windows" then
    try_except
      (m <- call (win32_memory src) ;; metrics_extend m ;;
       m <- call (win32_cpu src) ;; metrics_extend m ;;
       m <- call (win32_network src) ;; metrics_extend m ;;
       m <- call (win32_io src) ;; metrics_extend m ;;
       m <- call (win32_proc src) ;; metrics_extend m)
      (fun _ => log EXCEPTION "Unable to fetch Windows system metrics.")
  else
    network <- call (sd_networkTraffic src) ;;
    payload_update network ;;
    cpu_stats <- call (sd_cpuStats src) ;;
    payload_update cpu_stats ;;
    identifier <- call (sd_identifier src) ;;
    payload_update identifier ;;
    load <- call (unix_load src) ;;
    payload_update load ;;
    system <- call (unix_system src) ;;
    payload_update system ;;
    memory <- call (unix_memory src) ;;
    let get k := default VNone (memory !! k) in
    when (negb (bool_decide (memory = ∅)))
      (payload_update
         [ ("memPhysUsed", get "physUsed");
           ("memPhysPctUsable", get "physPctUsable");
           ("memPhysFree", get "physFree");
           ("memPhysTotal", get "physTotal");
           ("memPhysUsable", get "physUsable");
           ("memSwapUsed", get "swapUsed");
           ("memSwapFree", get "swapFree");
           ("memSwapPctFree", get "swapPctFree");
           ("memSwapTotal", get "swapTotal");
           ("memCached", get "physCached");
           ("memBuffers", get "physBuffers");
           ("memShared", get "physShared") ]) ;;
    ioStats <- call (unix_io src) ;;
    when (truthy ioStats) (payload_setitem "ioStats" ioStats) ;;
    processes <- call (unix_processes src) ;;
    payload_update [("processes", processes)] ;;
    cpuStats <- call (unix_cpu src) ;;
    when (nonempty cpuStats) (payload_update cpuStats).

(** The dogstream data: its events are merged into the events under the
    key 'dogstream', the rest is folded into the payload. *)
Definition fold_dogstream (dogstreamData : gmap string value) : M unit :=
  when (negb (bool_decide (dogstreamData = ∅)))
    (let dogstreamEvents := default VNone (dogstreamData !! "dogstreamEvents") in
     rest <-
       (if truthy dogstreamEvents then
          present <- payload_item_contains "events" "dogstream" ;;
          (if present then
             evs <- gets (fun st => events (locals st)) ;;
             match evs !! "dogstream" with
             | None => raise (KeyError "dogstream")
             | Some old =>
                 new <- call (extended old dogstreamEvents) ;;
                 events_setitem "dogstream" new
             end
           else events_setitem "dogstream" dogstreamEvents) ;;
          ret (delete "dogstreamEvents" dogstreamData)
        else ret dogstreamData) ;;
     payload_update (map_to_list rest)).

Definition is_not_False_nor_None (v : value) : bool :=
  match v with
  | VBool false | VNone => false
  | _ => true
  end.

(** The old-style checks. *)
Definition run_old_style_checks : M unit :=
  c <- gets self ;;
  let src := sources c in
  gangliaData <- call (ganglia src) ;;
  dogstreamData <- call (dogstream src) ;;
  ddforwarderData <- call (ddforwarder src) ;;
  when (is_not_False_nor_None gangliaData) (payload_setitem "ganglia" gangliaData) ;;
  fold_dogstream dogstreamData ;;
  when (truthy ddforwarderData) (payload_setitem "datadog" ddforwarderData).

(** The loop over [self._resources_checks]; the result is [has_resource]. *)
Fixpoint resources_loop (checks : list ResourceCheck.t) (has_resource : bool)
  : M bool :=
  match checks with
  | [] => ret has_resource
  | resources_check :: rest =>
      call (ResourceCheck.check resources_check) ;;
      snaps <- call (ResourceCheck.pop_snapshots resources_check) ;;
      has_resource <-
        (if nonempty snaps then
           format_version <- call (ResourceCheck.get_format_version resources_check) ;;
           let res_value : gmap string value :=
             <["format_version" := format_version]> {[ "snaps" := VList snaps ]} in
           res_format <- call (ResourceCheck.describe_format_if_needed resources_check) ;;
           let res_value :=
             match res_format with
             | VNone => res_value
             | _ => <["format_description" := res_format]> res_value
             end in
           payload_item_setitem "resources" (ResourceCheck.RESOURCE_KEY resources_check)
                                (VDict res_value) ;;
           ret true
         else ret has_resource) ;;
      resources_loop rest has_resource
  end.

(** The resources checks. *)
Definition run_resources_checks : M unit :=
  c <- gets self ;;
  when (negb (String.eqb (os c) "windows"))
    (has_resource <- resources_loop (_resources_checks c) false ;;
     when has_resource
       (host <- payload_getitem "internalHostname" ;;
        payload_item_setitem "resources" "meta"
          (VDict (<["host" := host]> {[ "agent_key" := agent_key (agentConfig c) ]})))).

(** The newer-style checks (not checks.d style). *)
Fixpoint metrics_checks_loop (checks : list (outcome (list value))) : M unit :=
  match checks with
  | [] => ret tt
  | metrics_check :: rest =>
      res <- call metrics_check ;;
      when (nonempty res) (metrics_extend res) ;;
      metrics_checks_loop rest
  end.

(** [Collector.stop]: the calls of [check.stop()] go to the sources. *)
Definition stop : M unit :=
  assign_self (fun c => set_continue_running c false).

(** The body of the [try] in the checks.d loop. *)
Definition check_try_block (check : Check.t) : M unit :=
  tell (SourceRun (Check.name check)) ;;
  when (Check.stop_requested check) stop ;;
  r <- call (Check.run check) ;;
  assign (fun f => set_instance_statuses f r) ;;
  current_check_metrics <- call (Check.get_metrics check) ;;
  current_check_events <- call (Check.get_events check) ;;
  stats <- call (Check._get_internal_profiling_stats check) ;;
  assign (fun f => set_check_stats f stats) ;;
  metadata <- call (Check.get_service_metadata check) ;;
  assign (fun f => set_current_check_metadata f (Some metadata)) ;;
  metrics_extend current_check_metrics ;;
  when (nonempty current_check_events)
    (evs <- gets (fun st => events (locals st)) ;;
     match evs !! Check.name check with
     | None => events_setitem (Check.name check) (VList current_check_events)
     | Some old =>
         new <- call (iadd old current_check_events) ;;
         events_setitem (Check.name check) new
     end) ;;
  assign (fun f => set_metric_count f (length current_check_metrics)) ;;
  assign (fun f => set_event_count f (length current_check_events)).

(** [check.SOURCE_TYPE_NAME or check.name] *)
Definition source_type_name_of (check : Check.t) : string :=
  match Check.SOURCE_TYPE_NAME check with
  | Some s => if String.eqb s "" then Check.name check else s
  | None => Check.name check
  end.

(** Reading a local that may not be bound yet. *)
Definition read_local {A} (var : string) (o : option A) : M A :=
  match o with
  | Some a => ret a
  | None => raise (UnboundLocalError var)
  end.

(** One iteration of the checks.d loop, after the stop test. *)
Definition run_check (check : Check.t) : M unit :=
  log INFO ("Running check " +:+ Check.name check) ;;
  assign (fun f => set_instance_statuses f []) ;;
  assign (fun f => set_metric_count f 0) ;;
  assign (fun f => set_event_count f 0) ;;
  assign (fun f => set_service_check_count f 0) ;;
  let check_start_time := Check.started_at check in
  assign (fun f => set_check_stats f VNone) ;;
  try_except (check_try_block check)
    (fun _ => log EXCEPTION ("Error running check " +:+ Check.name check)) ;;
  f <- gets locals ;;
  metadata <- read_local "current_check_metadata" (current_check_metadata f) ;;
  library_versions <- call (Check.get_library_info check) ;;
  let check_status :=
    {| CheckStatus.name := Check.name check;
       CheckStatus.instance_statuses := Some (instance_statuses f);
       CheckStatus.metric_count := Some (metric_count f);
       CheckStatus.event_count := Some (event_count f);
       CheckStatus.service_check_count := Some (service_check_count f);
       CheckStatus.service_metadata := metadata;
       CheckStatus.init_failed_error := None;
       CheckStatus.init_failed_traceback := None;
       CheckStatus.library_versions := library_versions;
       CheckStatus.source_type_name := Some (source_type_name_of check);
       CheckStatus.check_stats := check_stats f |} in
  match CheckStatus.status check_status with
  | STATUS_OK => assign (fun f => set_status f (Some OK))
  | STATUS_ERROR => assign (fun f => set_status f (Some CRITICAL))
  | STATUS_WARNING => ret tt
  end ;;
  f <- gets locals ;;
  status <- read_local "status" (status f) ;;
  call (Check.service_check check status) ;;
  current_check_service_checks <- call (Check.get_service_checks check status) ;;
  when (nonempty current_check_service_checks)
    (service_checks_extend current_check_service_checks) ;;
  assign (fun f => set_service_check_count f (length current_check_service_checks)) ;;
  let check_status :=
    CheckStatus.set_service_check_count (length current_check_service_checks)
                                        check_status in
  assign (fun f => set_check_statuses f (check_statuses f ++ [check_status])) ;;
  let check_run_time := (Check.finished_at check - check_start_time)%Z in
  log DEBUG ("Check " +:+ Check.name check +:+ " ran in "
             +:+ pretty check_run_time +:+ " s") ;;
  c <- gets self ;;
  when (check_timings c)
    (metrics_append
       (VTuple [ VStr "datadog.agent.check_run_time";
                 VNum (Check.stamped_at check);
                 VNum check_run_time;
                 VDict {[ "tags" := VList [VStr ("check:" +:+ Check.name check)] ]} ])).

(** How a loop of [run] ends: by exhausting its list, or by the
    [return] under the stop test. *)
Inductive flow := Next | Return_.

(** [for check in self.initialized_checks_d] *)
Fixpoint checks_d_loop (checks : list Check.t) : M flow :=
  match checks with
  | [] => ret Next
  | check :: rest =>
      c <- gets self ;;
      if negb (continue_running c) then ret Return_
      else run_check check ;; checks_d_loop rest
  end.

(** [for check_name, info in self.init_failed_checks_d.iteritems()] *)
Fixpoint init_failed_loop (items : list (string * InitFailure.t)) : M flow :=
  match items with
  | [] => ret Next
  | (check_name, info) :: rest =>
      c <- gets self ;;
      if negb (continue_running c) then ret Return_
      else
        let check_status :=
          {| CheckStatus.name := check_name;
             CheckStatus.instance_statuses := None;
             CheckStatus.metric_count := None;
             CheckStatus.event_count := None;
             CheckStatus.service_check_count := None;
             CheckStatus.service_metadata := VNone;
             CheckStatus.init_failed_error := Some (InitFailure.error info);
             CheckStatus.init_failed_traceback := Some (InitFailure.traceback info);
             CheckStatus.library_versions := VNone;
             CheckStatus.source_type_name := None;
             CheckStatus.check_stats := VNone |} in
        assign (fun f => set_check_statuses f (check_statuses f ++ [check_status])) ;;
        init_failed_loop rest
  end.

(** ** Collector: the periodic metadata *)

(** [s.split(",")] and [s.strip()]. *)
Fixpoint split_comma (s : string) : list string :=
  match s with
  | EmptyString => [EmptyString]
  | String c rest =>
      if Ascii.eqb c ","%char then EmptyString :: split_comma rest
      else match split_comma rest with
           | hd :: tl => String c hd :: tl
           | [] => [String c EmptyString]
           end
  end.

Definition is_space (c : ascii) : bool :=
  let n := Ascii.nat_of_ascii c in
  Nat.eqb n 32 || (Nat.leb 9 n && Nat.leb n 13).

Fixpoint lstrip (s : string) : string :=
  match s with
  | EmptyString => EmptyString
  | String c rest => if is_space c then lstrip rest else s
  end.

Definition strip (s : string) : string :=
  String.rev (lstrip (String.rev (lstrip s))).

Definition _get_hostname_metadata (w : World) : M value :=
  c <- gets self ;;
  metadata <- call (EC2_get_metadata w) ;;
  let metadata :=
    let hostname := default VNone (metadata !! "hostname") in
    if truthy hostname then delete "hostname" (<["ec2-hostname" := hostname]> metadata)
    else metadata in
  let from_socket :=
    try_except
      (h <- call (socket_gethostname w) ;; ret (<["socket-hostname" := h]> metadata))
      (fun _ => ret metadata) in
  metadata <-
    match config_hostname (agentConfig c) with
    | Some h =>
        if truthy (VStr h) then ret (<["agent-hostname" := VStr h]> metadata)
        else from_socket
    | None => from_socket
    end ;;
  metadata <-
    try_except
      (h <- call (socket_getfqdn w) ;; ret (<["socket-fqdn" := h]> metadata))
      (fun _ => ret metadata) ;;
  h <- call (get_hostname w) ;;
  let metadata := <["hostname" := h]> metadata in
  host_aliases <- call (GCE_get_host_aliases w) ;;
  ret (VDict (if truthy host_aliases
              then <["host_aliases" := host_aliases]> metadata
              else metadata)).

(** The [try] statement around the inventory command. *)
Definition gather_gohai (w : World) : M unit :=
  try_except
    (let command :=
       if negb (String.eqb (get_os w) "windows") then "gohai"
       else "gohai\gohai.exe" in
     r <- call (popen_communicate w command) ;;
     let gohai_metadata := r.1 in
     let gohai_log := r.2 in
     payload_setitem "gohai" gohai_metadata ;;
     when (truthy gohai_log) (log WARNING ("GOHAI LOG | " +:+ py_str w gohai_log)))
    (fun e =>
       match e with
       | OSError errno =>
           if (errno =? 2)%Z then log INFO "gohai file not found"
           else raise e
       | _ => log WARNING ("gohai command failed with error " +:+ str_exn w e)
       end).

(** The static and cloud tags of the host. *)
Definition populate_host_tags (w : World) : M unit :=
  c <- gets self ;;
  let host_tags :=
    match tags (agentConfig c) with
    | Some t => (fun tag => VStr (strip tag)) <$> split_comma t
    | None => []
    end in
  host_tags <-
    (if collect_ec2_tags (agentConfig c)
     then ec2 <- call (EC2_get_tags w) ;; ret (host_tags ++ ec2)
     else ret host_tags) ;;
  when (nonempty host_tags)
    (payload_item_setitem "host-tags" "system" (VList host_tags)) ;;
  GCE_tags <- call (GCE_get_tags w) ;;
  match GCE_tags with
  | VNone => ret tt
  | _ => payload_item_setitem "host-tags" (GCE_SOURCE_TYPE_NAME w) GCE_tags
  end ;;
  first <- _is_first_run ;;
  when first
    (c <- gets self ;;
     host_tags <- payload_getitem "host-tags" ;;
     log INFO ("Hostnames: " +:+ py_repr w (hostname_metadata_cache c)
               +:+ ", tags: " +:+ py_str w host_tags)).

(** The tags that the running sources have about other hosts. *)
Fixpoint external_host_tags_loop (checks : list Check.t)
    (external_host_tags : list value) : M (list value) :=
  match checks with
  | [] => ret external_host_tags
  | check :: rest =>
      external_host_tags <-
        try_except
          (check_tags <- call (Check.get_external_host_tags check) ;;
           ret (external_host_tags ++ check_tags))
          (fun e =>
             match e with
             | AttributeError _ => ret external_host_tags
             | _ => raise e
             end) ;;
      external_host_tags_loop rest external_host_tags
  end.

(** [l[i]] *)
Definition index_value (v : value) (i : nat) : outcome value :=
  match v with
  | VList l | VTuple l =>
      match l !! i with
      | Some x => Done x
      | None => Raised IndexError
      end
  | _ => Raised TypeError
  end.

(** [instance_status.error or instance_status.warnings or ""] *)
Definition error_or_warnings (i : InstanceStatus.t) : value :=
  match InstanceStatus.error i with
  | Some e => if truthy (VStr e) then VStr e
              else if nonempty (InstanceStatus.warnings i)
                   then VList (VStr <$> InstanceStatus.warnings i) else VStr ""
  | None => if nonempty (InstanceStatus.warnings i)
            then VList (VStr <$> InstanceStatus.warnings i) else VStr ""
  end.

Definition opt_str (o : option string) : value :=
  match o with Some s => VStr s | None => VNone end.

(** The entries of one check status in the agent_checks summary. *)
Fixpoint instance_entries (w : World) (check : CheckStatus.t)
    (l : list InstanceStatus.t) (i : nat) : outcome (list value) :=
  match l with
  | [] => Done []
  | instance_status :: rest =>
      match index_value (CheckStatus.service_metadata check) i with
      | Raised e => Raised e
      | Done md =>
          match instance_entries w check rest (S i) with
          | Raised e => Raised e
          | Done tl =>
              Done (VTuple [ VStr (CheckStatus.name check);
                             opt_str (CheckStatus.source_type_name check);
                             VNum (InstanceStatus.instance_id instance_status);
                             status_value w (InstanceStatus.status instance_status);
                             error_or_warnings instance_status;
                             md ] :: tl)
          end
      end
  end.

Fixpoint agent_checks_loop (w : World) (statuses : list CheckStatus.t)
    (agent_checks : list value) : M (list value) :=
  match statuses with
  | [] => ret agent_checks
  | check :: rest =>
      entries <-
        match CheckStatus.instance_statuses check with
        | Some l => call (instance_entries w check l 0)
        | None =>
            ret [ VTuple [ VStr (CheckStatus.name check);
                           opt_str (CheckStatus.source_type_name check);
                           VStr "initialization";
                           status_value w (CheckStatus.status check);
                           VStr (py_repr w (default VNone
                                              (CheckStatus.init_failed_error check))) ] ]
        end ;;
      agent_checks_loop w rest (agent_checks ++ entries)
  end.

Definition _populate_payload_metadata (w : World)
    (check_statuses : list CheckStatus.t) (start_event : bool) : M unit :=
  let now := now_populate w in
  first <- _is_first_run ;;
  when (start_event && first)
    (c <- gets self ;;
     payload_setitem "systemStats" (system_stats c) ;;
     host <- payload_getitem "internalHostname" ;;
     payload_item_setitem "events" "System"
       (VList [ VDict (<["agent_key" := agent_key (agentConfig c)]>
                      (<["host" := host]>
                      (<["timestamp" := VNum now]>
                      (<["event_type" := VStr "Agent Startup"]>
                      {[ "msg_text" := VStr ("Version " +:+ get_version w) ]})))) ])) ;;
  fire <- _should_send_additional_data (now_host_metadata w) "host_metadata" ;;
  when (truthy fire)
    (gather_gohai w ;;
     stats <- call (get_system_stats w) ;;
     payload_setitem "systemStats" stats ;;
     meta <- _get_hostname_metadata w ;;
     payload_setitem "meta" meta ;;
     meta <- payload_getitem "meta" ;;
     assign_self (fun c => set_hostname_metadata_cache c meta) ;;
     populate_host_tags w) ;;
  fire <- _should_send_additional_data (now_external_host_tags w) "external_host_tags" ;;
  external_host_tags <-
    (if truthy fire
     then c <- gets self ;; external_host_tags_loop (initialized_checks_d c) []
     else ret []) ;;
  when (nonempty external_host_tags)
    (payload_setitem "external_host_tags" (VList external_host_tags)) ;;
  fire <- _should_send_additional_data (now_agent_checks w) "agent_checks" ;;
  when (truthy fire)
    (agent_checks <- agent_checks_loop w check_statuses [] ;;
     payload_setitem "agent_checks" (VList agent_checks) ;;
     c <- gets self ;;
     payload_setitem "meta" (hostname_metadata_cache c)) ;;
  c <- gets self ;;
  fire <-
    (if create_dd_check_tags (agentConfig c)
     then _should_send_additional_data (now_dd_check_tags w) "dd_check_tags"
     else ret (VBool false)) ;;
  when (truthy fire)
    (c <- gets self ;;
     let app_tags_list :=
       (fun c => VStr (DD_CHECK_TAG (Check.name c))) <$> initialized_checks_d c in
     appnames <- call (get_jmx_appnames w) ;;
     let app_tags_list :=
       app_tags_list ++ ((fun cname => VStr (DD_CHECK_TAG cname)) <$> appnames) in
     present <- payload_item_contains "host-tags" "system" ;;
     when (negb present) (payload_item_setitem "host-tags" "system" (VList [])) ;;
     payload_item_item_extend "host-tags" "system" app_tags_list).

(** ** Collector: the cycle *)

(** The first element that satisfies [p], and the list without it. *)
Fixpoint pop_first {A} (p : A -> bool) (l : list A) : option (A * list A) :=
  match l with
  | [] => None
  | x :: rest =>
      if p x then Some (x, rest)
      else match pop_first p rest with
           | Some (y, rest') => Some (y, x :: rest')
           | None => None
           end
  end.

(** Find the AgentMetrics check and pop it out. *)
Definition find_agent_metrics (w : World) : M unit :=
  c <- gets self ;;
  match _agent_metrics c with
  | Some _ => ret tt
  | None =>
      match pop_first (fun check => String.eqb (Check.name check)
                                               (AGENT_METRICS_CHECK_NAME w))
                      (initialized_checks_d c) with
      | Some (check, others) =>
          assign_self (fun c => set__agent_metrics c (Some check)) ;;
          assign_self (fun c => set_initialized_checks_d c others)
      | None => ret tt
      end
  end.

(** What the payload holds, with the shared containers in place. *)
Definition resolve (f : Frame) (v : value) : value :=
  match v with
  | VRef Metrics => VList (metrics f)
  | VRef Events => VDict (events f)
  | VRef ServiceChecks => VList (service_checks f)
  | _ => v
  end.

Definition resolved_payload (f : Frame) : AgentPayload.t :=
  {| AgentPayload.data_payload := resolve f <$> AgentPayload.data_payload (payload f);
     AgentPayload.meta_payload := resolve f <$> AgentPayload.meta_payload (payload f) |}.

(** The agent metrics check runs last, with the context of the cycle. *)
Definition run_agent_metrics (w : World) (collect_duration : Z)
    (cpu_time : option Z) : M unit :=
  c <- gets self ;;
  match _agent_metrics c with
  | Some agent_metrics =>
      tell (SetMetricContext collect_duration (emit_duration c) cpu_time) ;;
      call (Check.set_metric_context agent_metrics) ;;
      tell (SourceRun (Check.name agent_metrics)) ;;
      when (Check.stop_requested agent_metrics) stop ;;
      call (Check.run agent_metrics) ;;
      agent_stats <- call (Check.get_metrics agent_metrics) ;;
      payload_item_extend "metrics" agent_stats ;;
      when (developer_mode (agentConfig c))
        (log INFO ("AGENT STATS: " +:+ pformat w agent_stats))
  | None => ret tt
  end.

Definition finished_message (run_count : nat) (collect_duration emit : Z) : string :=
  "Finished run #" +:+ pretty run_count +:+ ". Collection time: "
  +:+ pretty collect_duration +:+ "s. Emit time: " +:+ pretty emit +:+ "s".

(** The cycle from the agent's own service check to the agent metrics
    check; the result is [collect_duration]. *)
Definition complete_payload (w : World) (start_event : bool) : M Z :=
  c <- gets self ;;
  service_checks_append (create_service_check w "datadog.agent.up" OK (hostname c)) ;;
  payload_setitem "metrics" (VRef Metrics) ;;
  payload_setitem "events" (VRef Events) ;;
  payload_setitem "service_checks" (VRef ServiceChecks) ;;
  f <- gets locals ;;
  _populate_payload_metadata w (check_statuses f) start_event ;;
  let collect_duration := timer_collect w in
  (if negb (String.eqb (os c) "windows")
   then run_agent_metrics w collect_duration (Some (cpu_time w))
   else run_agent_metrics w collect_duration None) ;;
  ret collect_duration.

(** Persist the status of the collection run, log the summary of the
    cycle and return the payload. *)
Definition conclude (w : World) (collect_duration : Z)
    (emitter_statuses : list EmitterStatus.t) : M (option AgentPayload.t) :=
  try_except
    (c <- gets self ;;
     f <- gets locals ;;
     tell (Persist (check_statuses f) emitter_statuses (hostname_metadata_cache c)) ;;
     call (persist w (check_statuses f) emitter_statuses (hostname_metadata_cache c)))
    (fun _ => log EXCEPTION "Error persisting collector status") ;;
  c <- gets self ;;
  (if Nat.leb (run_count c) FLUSH_LOGGING_INITIAL
      || Nat.eqb (run_count c `mod` FLUSH_LOGGING_PERIOD) 0
   then
     log INFO (finished_message (run_count c) collect_duration (timer_emit w)) ;;
     when (Nat.eqb (run_count c) FLUSH_LOGGING_INITIAL)
       (log INFO ("First flushes done, next flushes will be logged every "
                  +:+ pretty FLUSH_LOGGING_PERIOD +:+ " flushes."))
   else
     log DEBUG (finished_message (run_count c) collect_duration (timer_emit w))) ;;
  f <- gets locals ;;
  ret (Some (resolved_payload f)).

(** The end of the cycle: the payload is sent and the time it took is
    kept in [emit_duration]. *)
Definition send_payload (w : World) (collect_duration : Z)
  : M (option AgentPayload.t) :=
  c <- gets self ;;
  f <- gets locals ;;
  let sent :=
    AgentPayload.emit (resolved_payload f) (emitters c) (continue_running c) true in
  let emitter_statuses := sent.1 in
  tells sent.2 ;;
  assign_self (fun c => set_emit_duration c (Some (timer_emit w))) ;;
  conclude w collect_duration emitter_statuses.

Definition finish_run (w : World) (start_event : bool) : M (option AgentPayload.t) :=
  collect_duration <- complete_payload w start_event ;;
  send_payload w collect_duration.

(** The cycle up to its loops over the checks.d sources. The locals of a
    call start unbound. *)
Definition before_loops (w : World)
    (checksd : option (list Check.t * list (string * InitFailure.t))) : M unit :=
  assign (fun _ => empty_frame) ;;
  assign_self (fun c => set_run_count c (S (run_count c))) ;;
  c <- gets self ;;
  log DEBUG ("Starting collection run #" +:+ pretty (run_count c)) ;;
  match checksd with
  | Some (initialized_checks, init_failed_checks) =>
      assign_self (fun c => set_initialized_checks_d c initialized_checks) ;;
      assign_self (fun c => set_init_failed_checks_d c init_failed_checks)
  | None => ret tt
  end ;;
  assign (fun f => set_payload f AgentPayload.__init__) ;;
  find_agent_metrics w ;;
  _build_payload w ;;
  run_system_checks ;;
  run_old_style_checks ;;
  run_resources_checks ;;
  c <- gets self ;;
  metrics_checks_loop (_metrics_checks c) ;;
  assign (fun f => set_check_statuses f []).

(** The two loops: over the initialised sources, then over the sources
    that failed to initialise. *)
Definition loops : M flow :=
  c <- gets self ;;
  fl <- checks_d_loop (initialized_checks_d c) ;;
  match fl with
  | Return_ => ret Return_
  | Next =>
      c <- gets self ;;
      init_failed_loop (init_failed_checks_d c)
  end.

Definition collect (w : World)
    (checksd : option (list Check.t * list (string * InitFailure.t))) : M flow :=
  before_loops w checksd ;;
  loops.

(** [Collector.run]: [None] is the bare [return] under a stop test. *)
Definition run (w : World)
    (checksd : option (list Check.t * list (string * InitFailure.t)))
    (start_event : bool) : M (option AgentPayload.t) :=
  fl <- collect w checksd ;;
  match fl with
  | Return_ => ret None
  | Next => finish_run w start_event
  end.

(** The state in which a cycle is called on a collector: the effects of
    the cycle are recorded from the empty trace. *)
Definition enter (c : t) : State :=
  {| self := c; locals := empty_frame; trace := [] |}.

(** [Collector.__init__]; [time_time k] is the k-th reading of the clock,
    and the sources that the constructor builds are given. *)
Definition __init__ (w : World) (time_time : nat -> Z) (agentConfig : Config)
    (emitters : list Emitter) (systemStats : value) (hostname : string)
    (system_sources : SystemChecks) (metrics_checks : list (outcome (list value)))
    (resources_checks : list ResourceCheck.t) : t :=
  {| emit_duration := None;
     agentConfig := agentConfig;
     hostname := hostname;
     system_stats := systemStats;
     os := get_os w;
     emitters := emitters;
     check_timings := config_check_timings agentConfig;
     push_times :=
       <["host_metadata" :=
           {| start := time_time 0;
              interval := default (4 * 60 * 60)%Z (metadata_interval agentConfig) |}]>
      (<["external_host_tags" :=
           {| start := (time_time 1%nat - 3 * 60)%Z;
              interval := default (5 * 60)%Z (external_host_tags agentConfig) |}]>
      (<["agent_checks" :=
           {| start := time_time 2;
              interval := default (10 * 60)%Z (agent_checks_interval agentConfig) |}]>
      {[ "dd_check_tags" :=
           {| start := time_time 3;
              interval := default (10 * 60)%Z (dd_check_tags_interval agentConfig) |} ]}));
     run_count := 0;
     continue_running := true;
     hostname_metadata_cache := VNone;
     initialized_checks_d := [];
     init_failed_checks_d := [];
     sources := system_sources;
     _agent_metrics := None;
     _metrics_checks := metrics_checks;
     _resources_checks := resources_checks |}.

(** ** Collector: states and records that the statements below name *)

(** The state after the gate has fired for [data_name] at [now]. *)
Definition rearmed (now : Z) (data_name : string) (g : Gate) (st : State) : State :=
  with_self
    (fun c => set_push_times c
       (<[data_name := {| start := now; interval := interval g |}]> (push_times c)))
    (with_trace
       (fun tr => tr ++ [Log DEBUG (data_name +:+ " interval has passed. Sending it.")])
       st).

(** The state with one more log entry. *)
Definition logged (lvl : level) (msg : string) (st : State) : State :=
  with_trace (fun tr => tr ++ [Log lvl msg]) st.

(** The status record of a source whose collection call raised. *)
Definition failed_status (check : Check.t) (metadata library_versions : value)
    (service_checks : list value) : CheckStatus.t :=
  {| CheckStatus.name := Check.name check;
     CheckStatus.instance_statuses := Some [];
     CheckStatus.metric_count := Some 0;
     CheckStatus.event_count := Some 0;
     CheckStatus.service_check_count := Some (length service_checks);
     CheckStatus.service_metadata := metadata;
     CheckStatus.init_failed_error := None;
     CheckStatus.init_failed_traceback := None;
     CheckStatus.library_versions := library_versions;
     CheckStatus.source_type_name := Some (source_type_name_of check);
     CheckStatus.check_stats := VNone |}.



(** The entry of a resource source in the resources block. *)
Definition res_value_of (snaps : list value) (format_version res_format : value)
  : gmap string value :=
  let res_value : gmap string value :=
    <["format_version" := format_version]> {[ "snaps" := VList snaps ]} in
  match res_format with
  | VNone => res_value
  | _ => <["format_description" := res_format]> res_value
  end.

(** What a resource source contributes to the resources block in a
    cycle: nothing when it pops no snapshot. *)
Definition contribution (rc : ResourceCheck.t) : option (gmap string value) :=
  match ResourceCheck.pop_snapshots rc, ResourceCheck.get_format_version rc,
        ResourceCheck.describe_format_if_needed rc with
  | Done snaps, Done format_version, Done res_format =>
      if nonempty snaps then Some (res_value_of snaps format_version res_format)
      else None
  | _, _, _ => None
  end.

Definition contributes (rc : ResourceCheck.t) : bool :=
  bool_decide (is_Some (contribution rc)).

Definition add_contribution (d : gmap string value) (rc : ResourceCheck.t)
  : gmap string value :=
  match contribution rc with
  | Some entry => <[ResourceCheck.RESOURCE_KEY rc := VDict entry]> d
  | None => d
  end.

(** None of the calls to the resource source raises. *)
Definition answers (rc : ResourceCheck.t) : Prop :=
  ResourceCheck.check rc = Done tt
  /\ (exists snaps, ResourceCheck.pop_snapshots rc = Done snaps)
  /\ (exists v, ResourceCheck.get_format_version rc = Done v)
  /\ (exists v, ResourceCheck.describe_format_if_needed rc = Done v).

(** The state in which the resources block of the payload is [d]. *)
Definition with_resources (d : gmap string value) (st : State) : State :=
  with_locals
    (fun f => set_payload f
       {| AgentPayload.data_payload :=
            <["resources" := VDict d]> (AgentPayload.data_payload (payload f));
          AgentPayload.meta_payload := AgentPayload.meta_payload (payload f) |}) st.

(** *** Relations between the state before and after a computation *)

(** [m] takes every state to a state related to it by [R]. *)
Definition steps (R : State -> State -> Prop) {A} (m : M A) : Prop :=
  forall st, R st (m st).2.

(** Collection: [emit_duration] is kept, and only log entries and starts
    of sources are recorded. *)
Definition benign (ev : event) : Prop :=
  match ev with Log _ _ | SourceRun _ => True | _ => False end.

Definition collecting (st st' : State) : Prop :=
  emit_duration (self st') = emit_duration (self st)
  /\ exists evs, trace st' = trace st ++ evs /\ Forall benign evs.

(** Every context given to the agent metrics check carries [d] as its
    emit time. *)
Definition fed_with (d : option Z) (ev : event) : Prop :=
  match ev with SetMetricContext _ emit_time _ => emit_time = d | _ => True end.

Definition feeding (d : option Z) (st st' : State) : Prop :=
  emit_duration (self st) = d ->
  emit_duration (self st') = d
  /\ exists evs, trace st' = trace st ++ evs /\ Forall (fed_with d) evs.

(** No context is given to the agent metrics check. *)
Definition not_context (ev : event) : Prop :=
  match ev with SetMetricContext _ _ _ => False | _ => True end.

Definition is_context (ev : event) : bool :=
  match ev with SetMetricContext _ _ _ => true | _ => false end.

Definition silent (st st' : State) : Prop :=
  exists evs, trace st' = trace st ++ evs /\ Forall not_context evs.

Definition keeping (st st' : State) : Prop :=
  emit_duration (self st') = emit_duration (self st).

Definition same_agent (st st' : State) : Prop :=
  _agent_metrics (self st') = _agent_metrics (self st).

(** The metric that the loop adds for a source when timings are on. *)
Definition timing_metric (check : Check.t) : value :=
  VTuple [ VStr "datadog.agent.check_run_time";
           VNum (Check.stamped_at check);
           VNum (Check.finished_at check - Check.started_at check);
           VDict {[ "tags" := VList [VStr ("check:" +:+ Check.name check)] ]} ].

(** ** Collector: the start of a cycle, and what a cycle has when it returns *)

(** The cycle up to its old-style checks: the first steps of
    [before_loops]. *)
Definition cycle_start (w : World)
    (checksd : option (list Check.t * list (string * InitFailure.t))) : M unit :=
  assign (fun _ => empty_frame) ;;
  assign_self (fun c => set_run_count c (S (run_count c))) ;;
  c <- gets self ;;
  log DEBUG ("Starting collection run #" +:+ pretty (run_count c)) ;;
  match checksd with
  | Some (initialized_checks, init_failed_checks) =>
      assign_self (fun c => set_initialized_checks_d c initialized_checks) ;;
      assign_self (fun c => set_init_failed_checks_d c init_failed_checks)
  | None => ret tt
  end ;;
  assign (fun f => set_payload f AgentPayload.__init__) ;;
  find_agent_metrics w ;;
  _build_payload w ;;
  run_system_checks.

(** [m], started in a state that satisfies [P] and returning normally,
    ends in a state that satisfies [Q]. *)
Definition returns_in (P : State → Prop) {A} (m : M A) (Q : State → Prop) : Prop :=
  ∀ st a st', P st → m st = (Done a, st') → Q st'.

(** The service metadata of the checks.d loop is as bound as before. *)
Definition same_metadata (st st' : State) : Prop :=
  current_check_metadata (locals st') = current_check_metadata (locals st).


(** The host metadata is due at the clock reading of the gate: the cycle
    is the first one, or the interval of the task has passed. *)
Definition host_metadata_due (w : World) (st : State) : Prop :=
  run_count (self st) ≤ 1
  ∨ ∃ g, push_times (self st) !! "host_metadata" = Some g
         ∧ (interval g ≤ now_host_metadata w - start g)%Z.

(** The payload names the host; and a step keeps the name. *)
Definition names_host (st : State) : Prop :=
  is_Some (AgentPayload.data_payload (payload (locals st)) !! "internalHostname").

Definition keeps_host (st st' : State) : Prop := names_host st → names_host st'.

(** ** Collector: a single source, run on demand *)

(** The body of the [try] in [run_single_check]. *)
Definition single_check_try_block (check : Check.t)
    (get_service_checks : outcome (list value)) : M unit :=
  tell (SourceRun (Check.name check)) ;;
  when (Check.stop_requested check) stop ;;
  r <- call (Check.run check) ;;
  assign (fun f => set_instance_statuses f r) ;;
  current_check_metrics <- call (Check.get_metrics check) ;;
  current_check_events <- call (Check.get_events check) ;;
  current_service_checks <- call get_service_checks ;;
  current_service_metadata <- call (Check.get_service_metadata check) ;;
  stats <- call (Check._get_internal_profiling_stats check) ;;
  assign (fun f => set_check_stats f stats) ;;
  assign (fun f => set_metric_count f (length current_check_metrics)) ;;
  assign (fun f => set_event_count f (length current_check_events)) ;;
  assign (fun f => set_service_check_count f (length current_service_checks)).

(** [Collector.run_single_check], a static method: its locals are those
    of the frame, and [get_service_checks] is what
    [check.get_service_checks()] answers when no health service check was
    submitted to the source. What the method prints goes to the standard
    output, which the trace does not record. *)
Definition run_single_check (check : Check.t)
    (get_service_checks : outcome (list value)) : M CheckStatus.t :=
  log INFO ("Running check " +:+ Check.name check) ;;
  assign (fun f => set_instance_statuses f []) ;;
  assign (fun f => set_metric_count f 0) ;;
  assign (fun f => set_event_count f 0) ;;
  assign (fun f => set_service_check_count f 0) ;;
  assign (fun f => set_check_stats f VNone) ;;
  try_except (single_check_try_block check get_service_checks)
    (fun _ => log EXCEPTION ("Error running check " +:+ Check.name check)) ;;
  f <- gets locals ;;
  library_versions <- call (Check.get_library_info check) ;;
  ret {| CheckStatus.name := Check.name check;
         CheckStatus.instance_statuses := Some (instance_statuses f);
         CheckStatus.metric_count := Some (metric_count f);
         CheckStatus.event_count := Some (event_count f);
         CheckStatus.service_check_count := Some (service_check_count f);
         CheckStatus.service_metadata := VNone;
         CheckStatus.init_failed_error := None;
         CheckStatus.init_failed_traceback := None;
         CheckStatus.library_versions := library_versions;
         CheckStatus.source_type_name := Some (source_type_name_of check);
         CheckStatus.check_stats := check_stats f |}.

(** ** Collector: records that the statements on the rest of the code name *)

(** The status record of a source that failed to initialise. *)
Definition init_failed_status (item : string * InitFailure.t) : CheckStatus.t :=
  {| CheckStatus.name := item.1;
     CheckStatus.instance_statuses := None;
     CheckStatus.metric_count := None;
     CheckStatus.event_count := None;
     CheckStatus.service_check_count := None;
     CheckStatus.service_metadata := VNone;
     CheckStatus.init_failed_error := Some (InitFailure.error item.2);
     CheckStatus.init_failed_traceback := Some (InitFailure.traceback item.2);
     CheckStatus.library_versions := VNone;
     CheckStatus.source_type_name := None;
     CheckStatus.check_stats := VNone |}.

(** The state after [more] was appended to [check_statuses]. *)
Definition with_statuses (more : list CheckStatus.t) (st : State) : State :=
  with_locals (fun f => set_check_statuses f (check_statuses f ++ more)) st.

(** The external host tags of a source; a source without the getter has
    none. *)
Definition tags_of (check : Check.t) : list value :=
  match Check.get_external_host_tags check with
  | Done check_tags => check_tags
  | Raised _ => []
  end.

(** The getter of the external host tags answers, or the source has no
    such attribute. *)
Definition tags_or_no_getter (check : Check.t) : Prop :=
  match Check.get_external_host_tags check with
  | Done _ => True
  | Raised (AttributeError _) => True
  | Raised _ => False
  end.

(** The three counts of a status record. *)
Definition counts (s : CheckStatus.t) : option nat * option nat * option nat :=
  (CheckStatus.metric_count s, CheckStatus.event_count s,
   CheckStatus.service_check_count s).

(** What the getters in the [try] of [run_single_check] answer, when
    every one of them answers. *)
Definition answers_all (check : Check.t) (get_service_checks : outcome (list value))
  : option (list InstanceStatus.t * list value * list value * list value * value) :=
  match Check.run check, Check.get_metrics check, Check.get_events check,
        get_service_checks, Check.get_service_metadata check,
        Check._get_internal_profiling_stats check with
  | Done r, Done ms, Done es, Done scs, Done _, Done stats =>
      Some (r, ms, es, scs, stats)
  | _, _, _, _, _, _ => None
  end.

(** The cycle counter is left as it is. *)
Definition counted (st st' : State) : Prop :=
  run_count (self st') = run_count (self st).

End Collector.

(** ** Concrete collaborators and collectors, used to run the model *)

Module Scenario.
Import Collector.

Definition quiet_sources : SystemChecks :=
  {| win32_memory := Done []; win32_cpu := Done []; win32_network := Done [];
     win32_io := Done []; win32_proc := Done [];
     sd_networkTraffic := Done []; sd_cpuStats := Done []; sd_identifier := Done [];
     unix_load := Done []; unix_system := Done []; unix_memory := Done ∅;
     unix_io := Done VNone; unix_processes := Done VNone; unix_cpu := Done [];
     ganglia := Done VNone; dogstream := Done ∅; ddforwarder := Done VNone |}.

Definition plain_config : Config :=
  {| version := VStr "5.5.0"; agent_key := VStr "key"; tags := None;
     collect_ec2_tags := false; create_dd_check_tags := false;
     developer_mode := false; config_hostname := Some "host1";
     config_check_timings := false; metadata_interval := None;
     external_host_tags := None; agent_checks_interval := None;
     dd_check_tags_interval := None |}.

(** A Linux host on which the inventory command answers [gohai]. *)
Definition world_with (gohai : outcome (value * value)) (emit_time : Z) : World :=
  {| AGENT_METRICS_CHECK_NAME := "agent_metrics";
     create_service_check := fun check st host =>
       VDict (<["check" := VStr check]> {[ "host_name" := VStr host ]});
     py_repr := fun _ => "repr";
     py_str := fun _ => "str";
     status_value := fun s =>
       match s with
       | STATUS_OK => VStr "OK"
       | STATUS_WARNING => VStr "WARNING"
       | STATUS_ERROR => VStr "ERROR"
       end;
     str_exn := fun _ => "error";
     sys_version := VStr "2.7"; get_uuid := VStr "uuid"; get_version := "5.5.0";
     get_os := "linux";
     now_build_payload := 1000; now_populate := 1001; now_host_metadata := 1002;
     now_external_host_tags := 1003; now_agent_checks := 1004;
     now_dd_check_tags := 1005;
     timer_collect := 7; timer_emit := emit_time; cpu_time := 1;
     popen_communicate := fun _ => gohai;
     get_system_stats := Done (VDict ∅);
     EC2_get_metadata := Done ∅; EC2_get_tags := Done [];
     GCE_get_tags := Done VNone; GCE_SOURCE_TYPE_NAME := "google cloud platform";
     GCE_get_host_aliases := Done VNone;
     socket_gethostname := Done (VStr "host1");
     socket_getfqdn := Done (VStr "host1.local");
     get_hostname := Done (VStr "host1");
     get_jmx_appnames := Done [];
     pformat := fun _ => "stats";
     persist := fun _ _ _ => Done tt |}.

Definition plain_world : World := world_with (Done (VStr "{}", VStr "")) 3.

Definition ok_instance : InstanceStatus.t :=
  {| InstanceStatus.instance_id := 0; InstanceStatus.status := STATUS_OK;
     InstanceStatus.error := None; InstanceStatus.warnings := [] |}.

(** A source that reports three metrics, one event and the service
    checks [scs]; [r] is what its collection call does and [stops] says
    whether the stop signal arrives while it runs. *)
Definition source (n : string) (r : outcome (list InstanceStatus.t))
    (scs : list value) (stops : bool) : Check.t :=
  {| Check.name := n; Check.SOURCE_TYPE_NAME := None; Check.run := r;
     Check.get_metrics := Done [VNum 1; VNum 2; VNum 3];
     Check.get_events := Done [VStr "ev"];
     Check._get_internal_profiling_stats := Done VNone;
     Check.get_service_metadata := Done (VList [VDict ∅]);
     Check.get_library_info := Done VNone;
     Check.service_check := fun _ => Done tt;
     Check.get_service_checks := fun _ => Done scs;
     Check.get_external_host_tags := Raised (AttributeError "get_external_host_tags");
     Check.set_metric_context := Done tt;
     Check.stop_requested := stops;
     Check.started_at := 10; Check.finished_at := 12; Check.stamped_at := 12 |}.

Definition good : Check.t :=
  source "good" (Done [ok_instance]) [VStr "check_status"] false.
Definition bad : Check.t :=
  source "bad" (Raised (Exception "boom")) [VStr "check_status"] false.
Definition last_one : Check.t :=
  source "last" (Done [ok_instance]) [VStr "check_status"] true.
Definition agent_metrics : Check.t :=
  source "agent_metrics" (Done [ok_instance]) [] false.

Definition an_emitter (n : string) (r : option exn) : Emitter :=
  {| __name__ := n; emitter_call := fun _ _ => r |}.

Definition http : Emitter := an_emitter "http_emitter" None.
Definition broken : Emitter := an_emitter "broken_emitter" (Some (Exception "down")).

Definition processes : ResourceCheck.t :=
  {| ResourceCheck.RESOURCE_KEY := "processes";
     ResourceCheck.check := Done tt;
     ResourceCheck.pop_snapshots := Done [VList [VNum 1]];
     ResourceCheck.get_format_version := Done (VNum 1);
     ResourceCheck.describe_format_if_needed := Done VNone |}.

(** A collector as [__init__] builds it at clock reading 0. *)
Definition collector (resources_checks : list ResourceCheck.t) : Collector.t :=
  Collector.__init__ plain_world (fun _ => 0%Z) plain_config [http; broken]
                     (VDict ∅) "host1" quiet_sources [] resources_checks.

Definition c0 : Collector.t := collector [].

(** The state of the first cycle of [c0] when it reaches its loops. *)
Definition first_cycle : State := (before_loops plain_world None (enter c0)).2.

(** A state of the second cycle of [c0]. *)
Definition second_cycle : State :=
  with_self (fun c => set_run_count c 2) (enter c0).

(** The inventory command fails with EACCES. *)
Definition denied : World := world_with (Raised (OSError 13)) 3.


(** A host of the system [system] on which the status sink answers
    [saved]. *)
Definition host_running (system : string) (saved : outcome unit) : World :=
  {| AGENT_METRICS_CHECK_NAME := "agent_metrics";
     create_service_check := fun check st host =>
       VDict (<["check" := VStr check]> {[ "host_name" := VStr host ]});
     py_repr := fun _ => "repr";
     py_str := fun _ => "str";
     status_value := fun s =>
       match s with
       | STATUS_OK => VStr "OK"
       | STATUS_WARNING => VStr "WARNING"
       | STATUS_ERROR => VStr "ERROR"
       end;
     str_exn := fun _ => "error";
     sys_version := VStr "2.7"; get_uuid := VStr "uuid"; get_version := "5.5.0";
     get_os := system;
     now_build_payload := 1000; now_populate := 1001; now_host_metadata := 1002;
     now_external_host_tags := 1003; now_agent_checks := 1004;
     now_dd_check_tags := 1005;
     timer_collect := 7; timer_emit := 3; cpu_time := 1;
     popen_communicate := fun _ => Done (VStr "{}", VStr "");
     get_system_stats := Done (VDict ∅);
     EC2_get_metadata := Done ∅; EC2_get_tags := Done [];
     GCE_get_tags := Done VNone; GCE_SOURCE_TYPE_NAME := "google cloud platform";
     GCE_get_host_aliases := Done VNone;
     socket_gethostname := Raised (Exception "no socket");
     socket_getfqdn := Done (VStr "host1.local");
     get_hostname := Done (VStr "host1");
     get_jmx_appnames := Done [];
     pformat := fun _ => "stats";
     persist := fun _ _ _ => saved |}.

(** The status of the collection run cannot be written. *)
Definition unwritable : World := host_running "linux" (Raised (Exception "disk full")).




(** A source whose getter of external host tags does [r]. *)
Definition with_host_tags (n : string) (r : outcome (list value)) : Check.t :=
  {| Check.name := n; Check.SOURCE_TYPE_NAME := None;
     Check.run := Done [ok_instance];
     Check.get_metrics := Done []; Check.get_events := Done [];
     Check._get_internal_profiling_stats := Done VNone;
     Check.get_service_metadata := Done (VList [VDict ∅]);
     Check.get_library_info := Done VNone;
     Check.service_check := fun _ => Done tt;
     Check.get_service_checks := fun _ => Done [];
     Check.get_external_host_tags := r;
     Check.set_metric_context := Done tt;
     Check.stop_requested := false;
     Check.started_at := 10; Check.finished_at := 12; Check.stamped_at := 12 |}.

Definition tagged : Check.t :=
  with_host_tags "vsphere" (Done [VTuple [VStr "vm1"; VDict ∅]]).
Definition untaggable : Check.t :=
  with_host_tags "flaky" (Raised (Exception "timeout")).

(** A source that failed to initialise. *)
Definition failed_import : string * InitFailure.t :=
  ("broken", {| InitFailure.error := VStr "ImportError";
                InitFailure.traceback := VStr "Traceback" |}).

(** The status record of a source with one instance and the service
    metadata of one instance. *)
Definition good_status : CheckStatus.t :=
  {| CheckStatus.name := "good";
     CheckStatus.instance_statuses := Some [ok_instance];
     CheckStatus.metric_count := Some 3;
     CheckStatus.event_count := Some 1;
     CheckStatus.service_check_count := Some 1;
     CheckStatus.service_metadata := VList [VDict ∅];
     CheckStatus.init_failed_error := None;
     CheckStatus.init_failed_traceback := None;
     CheckStatus.library_versions := VNone;
     CheckStatus.source_type_name := Some "good";
     CheckStatus.check_stats := VNone |}.





End Scenario.

(** * Properties *)

(** ** The payload: key routing *)

Section PayloadRouting.
Import AgentPayload.

Lemma metadata_not_duplicate key : key ∈ METADATA_KEYS → key ∉ DUPLICATE_KEYS.
Proof.
  assert (METADATA_KEYS ## DUPLICATE_KEYS) as Hdisj
    by (apply (bool_decide_unpack _); vm_compute; exact I).
  intros Hm Hd. exact (Hdisj key Hm Hd).
Qed.

Lemma agree_init : agree __init__.
Proof. intros key _. reflexivity. Qed.

Lemma agree_setitem key v p : agree p → agree (__setitem__ key v p).
Proof.
  intros Hp k Hk. unfold __setitem__.
  destruct (decide (key ∈ DUPLICATE_KEYS)) as [Hd|Hd]; cbn.
  - destruct (decide (key = k)) as [->|Hne].
    + by rewrite !lookup_insert_eq.
    + rewrite !lookup_insert_ne by done. by apply Hp.
  - assert (key ≠ k) by (intros ->; done).
    destruct (decide (key ∈ METADATA_KEYS)); cbn;
      rewrite lookup_insert_ne by done; by apply Hp.
Qed.

Lemma agree_delitem key p : agree p → agree (__delitem__ key p).2.
Proof.
  intros Hp k Hk. unfold __delitem__, dict_delitem.
  destruct (decide (key ∈ DUPLICATE_KEYS)) as [Hd|Hd].
  - pose proof (Hp key Hd) as Hkey.
    destruct (data_payload p !! key) as [x|] eqn:Hx; cbn; [|by apply Hp].
    rewrite <- Hkey. cbn.
    destruct (decide (key = k)) as [->|Hne].
    + by rewrite !lookup_delete_eq.
    + rewrite !lookup_delete_ne by done. by apply Hp.
  - assert (key ≠ k) by (intros ->; done).
    destruct (decide (key ∈ METADATA_KEYS)).
    + destruct (meta_payload p !! key); cbn; [|by apply Hp].
      rewrite lookup_delete_ne by done. by apply Hp.
    + destruct (data_payload p !! key); cbn; [|by apply Hp].
      rewrite lookup_delete_ne by done. by apply Hp.
Qed.

Lemma agree_foldl ops p : agree p → agree (foldl apply_op p ops).
Proof.
  revert p. induction ops as [|o ops IH]; intros p Hp; [done|].
  cbn. apply IH. destruct o; [by apply agree_setitem | by apply agree_delitem].
Qed.

(** C3. Setting or getting a metadata key touches only the metadata map;
    setting a duplicate key writes the value into both maps, and after
    any sequence of set and delete operations on a new payload the two
    maps hold equal entries for it; setting or getting any other key
    touches only the data map. The routing holds for every payload [p],
    whatever it already contains. *)
Theorem payload_key_routing (key : string) (v : value) (p : t) (ops : list op) :
  (key ∈ METADATA_KEYS →
     data_payload (__setitem__ key v p) = data_payload p
     ∧ meta_payload (__setitem__ key v p) = <[key := v]> (meta_payload p)
     ∧ __getitem__ key p = dict_getitem key (meta_payload p))
  ∧ (key ∈ DUPLICATE_KEYS →
     data_payload (__setitem__ key v p) = <[key := v]> (data_payload p)
     ∧ meta_payload (__setitem__ key v p) = <[key := v]> (meta_payload p)
     ∧ data_payload (apply_ops ops) !! key = meta_payload (apply_ops ops) !! key)
  ∧ (key ∉ METADATA_KEYS → key ∉ DUPLICATE_KEYS →
     data_payload (__setitem__ key v p) = <[key := v]> (data_payload p)
     ∧ meta_payload (__setitem__ key v p) = meta_payload p
     ∧ __getitem__ key p = dict_getitem key (data_payload p)).
Proof.
  split; [|split].
  - intros Hm. pose proof (metadata_not_duplicate key Hm) as Hd.
    unfold __setitem__, __getitem__.
    destruct (decide (key ∈ DUPLICATE_KEYS)); [done|].
    destruct (decide (key ∈ METADATA_KEYS)); done.
  - intros Hd. unfold __setitem__.
    destruct (decide (key ∈ DUPLICATE_KEYS)); [|done].
    repeat split. exact (agree_foldl ops __init__ agree_init key Hd).
  - intros Hm Hd. unfold __setitem__, __getitem__.
    destruct (decide (key ∈ DUPLICATE_KEYS)); [done|].
    destruct (decide (key ∈ METADATA_KEYS)); done.
Qed.

Lemma payload_key_routing_witness :
  meta_payload (__setitem__ "gohai" (VStr "x") __init__) = {[ "gohai" := VStr "x" ]}
  ∧ data_payload (apply_ops [SetItem "agentKey" (VStr "k"); DelItem "agentKey";
                             SetItem "agentKey" (VStr "k2")]) !! "agentKey"
    = meta_payload (apply_ops [SetItem "agentKey" (VStr "k"); DelItem "agentKey";
                               SetItem "agentKey" (VStr "k2")]) !! "agentKey"
  ∧ data_payload (__setitem__ "metrics" (VList []) __init__)
    = {[ "metrics" := VList [] ]}.
Proof.
  split; [|split].
  - destruct (payload_key_routing "gohai" (VStr "x") __init__ []) as (Hm & _ & _).
    apply Hm. apply (bool_decide_unpack _). vm_compute. exact I.
  - destruct (payload_key_routing "agentKey" VNone __init__
                [SetItem "agentKey" (VStr "k"); DelItem "agentKey";
                 SetItem "agentKey" (VStr "k2")]) as (_ & Hd & _).
    apply Hd. apply (bool_decide_unpack _). vm_compute. exact I.
  - destruct (payload_key_routing "metrics" (VList []) __init__ []) as (_ & _ & Ho).
    apply Ho; apply (bool_decide_unpack _); vm_compute; exact I.
Defined.
End PayloadRouting.

(** ** The payload: emission *)

Section Emission.
Import AgentPayload.

Lemma _emit_loop_running payload endpoint emitters statuses :
  _emit_loop true payload endpoint emitters statuses
  = (statuses ++ (status_of payload endpoint <$> emitters),
     emitters ≫= events_of payload endpoint).
Proof.
  revert statuses. induction emitters as [|e es IH]; intros statuses; simpl.
  - by rewrite app_nil_r.
  - unfold events_of, status_of, call_of.
    destruct (emitter_call e payload endpoint); rewrite IH; cbn;
      by rewrite <- app_assoc.
Qed.

Lemma _emit_loop_stopped payload endpoint emitters statuses :
  _emit_loop false payload endpoint emitters statuses = (statuses, []).
Proof. by destruct emitters. Qed.

Lemma calls_of_events payload endpoint emitters :
  List.filter is_emitter_call (emitters ≫= events_of payload endpoint)
  = call_of payload endpoint <$> emitters.
Proof.
  induction emitters as [|e es IH]; [done|].
  rewrite bind_cons, List.filter_app, IH, fmap_cons. unfold events_of.
  by destruct (emitter_call e payload endpoint).
Qed.

Lemma _emit_payload_running emitters payload endpoint :
  _emit_payload emitters true payload endpoint
  = (status_of payload endpoint <$> emitters, emitters ≫= events_of payload endpoint).
Proof. unfold _emit_payload. by rewrite _emit_loop_running. Qed.


(** C4. With [merge_payloads] true, [emit] calls every emitter exactly
    once, with the merged view and the common endpoint; with
    [merge_payloads] false it calls every emitter with the data map and
    the metrics endpoint, then every emitter with the metadata map and
    the metadata endpoint; when [continue_running] is false the loop
    makes no call and returns the statuses collected so far unchanged. *)
Theorem emit_call_count (self : t) (emitters : list Emitter)
    (payload : gmap string value) (endpoint : string)
    (statuses : list EmitterStatus.t) (merge_payloads : bool) :
  List.filter is_emitter_call (emit self emitters true true).2
    = call_of (AgentPayload.payload self) COMMON_ENDPOINT <$> emitters
  ∧ List.filter is_emitter_call (emit self emitters true false).2
    = (call_of (data_payload self) DATA_ENDPOINT <$> emitters)
      ++ (call_of (meta_payload self) METADATA_ENDPOINT <$> emitters)
  ∧ _emit_loop false payload endpoint emitters statuses = (statuses, [])
  ∧ emit self emitters false merge_payloads = ([], []).
Proof.
  repeat split.
  - unfold emit. rewrite _emit_payload_running. cbn. apply calls_of_events.
  - unfold emit. rewrite !_emit_payload_running. cbn.
    rewrite List.filter_app. by rewrite !calls_of_events.
  - apply _emit_loop_stopped.
  - unfold emit, _emit_payload. rewrite !_emit_loop_stopped.
    by destruct merge_payloads.
Qed.


End Emission.

(** ** The periodic gate *)

Section PeriodicGate.
Import Collector Scenario.

(** C2, as the code has it. On the first cycle the gate returns [True]
    for every task and leaves the state as it is: the start of the task
    is not reset. On a later cycle it returns a true value exactly when
    [now - start >= interval]; when it does, it resets the start of the
    task to [now], and when it does not, it leaves the state unchanged. *)
Theorem gate_fire_and_rearm (now : Z) (data_name : string) (g : Gate) (st : State) :
  push_times (self st) !! data_name = Some g →
  (run_count (self st) ≤ 1 →
     _should_send_additional_data now data_name st = (Done (VBool true), st))
  ∧ (1 < run_count (self st) →
     ∃ v st', _should_send_additional_data now data_name st = (Done v, st')
       ∧ (truthy v = true ↔ (interval g ≤ now - start g)%Z)
       ∧ (truthy v = true →
            st' = rearmed now data_name g st
            ∧ push_times (self st') !! data_name
              = Some {| start := now; interval := interval g |})
       ∧ (truthy v = false → st' = st)).
Proof.
  intros Hg. unfold _should_send_additional_data, _is_first_run, bind, gets.
  split.
  - intros Hfirst. apply Nat.leb_le in Hfirst. by rewrite Hfirst.
  - intros Hlater. apply Nat.leb_gt in Hlater. rewrite Hlater, Hg.
    destruct (interval g <=? now - start g)%Z eqn:Hcmp.
    + apply Z.leb_le in Hcmp.
      eexists _, _. split; [reflexivity|]. cbn.
      repeat split; try done.
      by rewrite lookup_insert_eq.
    + apply Z.leb_gt in Hcmp.
      eexists _, _. split; [reflexivity|]. cbn.
      repeat split; try done. lia.
Qed.

Lemma gate_fire_and_rearm_witness :
  push_times (self second_cycle) !! "host_metadata"
    = Some {| start := 0; interval := 14400 |}
  ∧ ∃ v st', _should_send_additional_data 14400 "host_metadata" second_cycle
             = (Done v, st')
      ∧ (truthy v = true ↔ (14400 ≤ 14400 - 0)%Z)
      ∧ (truthy v = true →
           st' = rearmed 14400 "host_metadata" {| start := 0; interval := 14400 |}
                   second_cycle
           ∧ push_times (self st') !! "host_metadata"
             = Some {| start := 14400; interval := 14400 |})
      ∧ (truthy v = false → st' = second_cycle).
Proof.
  split; [vm_compute; reflexivity|].
  apply (gate_fire_and_rearm 14400 "host_metadata"
           {| start := 0; interval := 14400 |} second_cycle).
  - vm_compute. reflexivity.
  - vm_compute. lia.
Defined.

(** On the first cycle the gate fires for the host metadata at clock
    reading 20000, and the start of the task stays at 0. *)
Lemma gate_first_cycle_keeps_start :
  run_count (self first_cycle) = 1
  ∧ (_should_send_additional_data 20000 "host_metadata" first_cycle).1
    = Done (VBool true)
  ∧ push_times (self (_should_send_additional_data 20000 "host_metadata"
                        first_cycle).2) !! "host_metadata"
    = Some {| start := 0; interval := 14400 |}
  ∧ (0 ≠ 20000)%Z.
Proof. repeat split; try (vm_compute; reflexivity). lia. Qed.
End PeriodicGate.

(** ** The checks.d loop: a source that raises after another one ran *)

Section SourceIsolation.
Import Collector Scenario.

(** A source that raises later in the cycle. When the collection call of
    a source raises at a point of the loop where [current_check_metadata]
    is bound (an earlier source of the cycle returned its metadata), the
    exception is logged, a status with no instance status and zero metric
    and event counts is appended for the source, its service-check count
    being the number of service checks the source reports after the
    health service check, and the loop goes on with the next source. *)
Theorem raising_source_is_isolated (check : Check.t) (rest : list Check.t)
    (e : exn) (st : State) (metadata library_versions : value)
    (service_checks : list value) :
  continue_running (self st) = true →
  Check.stop_requested check = false →
  Check.run check = Raised e →
  current_check_metadata (locals st) = Some metadata →
  Check.get_library_info check = Done library_versions →
  Check.service_check check OK = Done tt →
  Check.get_service_checks check OK = Done service_checks →
  ∃ st',
    run_check check st = (Done tt, st')
    ∧ checks_d_loop (check :: rest) st = checks_d_loop rest st'
    ∧ Log EXCEPTION ("Error running check " +:+ Check.name check) ∈ trace st'
    ∧ check_statuses (locals st')
      = check_statuses (locals st)
        ++ [failed_status check metadata library_versions service_checks]
    ∧ events (locals st') = events (locals st)
    ∧ metrics (locals st')
      = metrics (locals st)
        ++ (if check_timings (self st) then [timing_metric check] else [])
    ∧ continue_running (self st') = true.
Proof.
  intros Hrun Hstop Hraise Hmd Hlib Hsc Hscs.
  assert (∃ st', run_check check st = (Done tt, st')
    ∧ Log EXCEPTION ("Error running check " +:+ Check.name check) ∈ trace st'
    ∧ check_statuses (locals st')
      = check_statuses (locals st)
        ++ [failed_status check metadata library_versions service_checks]
    ∧ events (locals st') = events (locals st)
    ∧ metrics (locals st')
      = metrics (locals st)
        ++ (if check_timings (self st) then [timing_metric check] else [])
    ∧ continue_running (self st') = true) as (st' & Hst' & Hrest).
  { unfold run_check, check_try_block, try_except, bind, log, tell, assign, modify,
      gets, call, read_local, when, ret, stop, assign_self,
      service_checks_extend, metrics_append, timing_metric.
    rewrite Hstop, Hraise. cbn. rewrite Hmd, Hlib. cbn. rewrite Hsc, Hscs. cbn.
    destruct (nonempty service_checks) eqn:Hne,
             (check_timings (self st)) eqn:Hct;
      cbn; rewrite ?Hct; cbn; (eexists; split; [reflexivity|]); cbn;
      (repeat split; try done; try by rewrite app_nil_r);
      rewrite !elem_of_app, !list_elem_of_singleton; intuition. }
  exists st'. split; [done|]. split; [|done].
  simpl. unfold bind, gets. rewrite Hrun. simpl. by rewrite Hst'.
Qed.

Lemma raising_source_is_isolated_witness :
  Check.run bad = Raised (Exception "boom")
  ∧ current_check_metadata (locals (run_check good first_cycle).2)
    = Some (VList [VDict ∅])
  ∧ ∃ st',
      run_check bad (run_check good first_cycle).2 = (Done tt, st')
      ∧ checks_d_loop (bad :: [good]) (run_check good first_cycle).2
        = checks_d_loop [good] st'
      ∧ Log EXCEPTION ("Error running check " +:+ Check.name bad) ∈ trace st'
      ∧ check_statuses (locals st')
        = check_statuses (locals (run_check good first_cycle).2)
          ++ [failed_status bad (VList [VDict ∅]) VNone [VStr "check_status"]]
      ∧ events (locals st') = events (locals (run_check good first_cycle).2)
      ∧ metrics (locals st')
        = metrics (locals (run_check good first_cycle).2)
          ++ (if check_timings (self (run_check good first_cycle).2)
              then [timing_metric bad] else [])
      ∧ continue_running (self st') = true.
Proof.
  split; [reflexivity|]. split; [vm_compute; reflexivity|].
  apply (raising_source_is_isolated bad [good] (Exception "boom")
           (run_check good first_cycle).2 (VList [VDict ∅]) VNone
           [VStr "check_status"]);
    vm_compute; reflexivity.
Defined.

(** A source whose collection call raises, run after a source that
    succeeded: its status counts the service check that the source
    reports, so that its service-check count is 1, not 0. *)
Lemma raising_source_counts_service_checks :
  Check.run bad = Raised (Exception "boom")
  ∧ (run plain_world (Some ([good; bad], [])) true (enter c0)).1 ≠ Done None
  ∧ (fun cs => (CheckStatus.name cs, CheckStatus.instance_statuses cs,
                CheckStatus.metric_count cs, CheckStatus.event_count cs,
                CheckStatus.service_check_count cs))
      <$> check_statuses
            (locals (run plain_world (Some ([good; bad], [])) true (enter c0)).2)
    = [ ("good", Some [ok_instance], Some 3, Some 1, Some 1);
        ("bad", Some [], Some 0, Some 0, Some 1) ].
Proof. repeat split; try (vm_compute; reflexivity). vm_compute. discriminate. Qed.
End SourceIsolation.

(** ** The cycle: what its steps keep *)

Section Cycle.
Import Collector Scenario.
Local Open Scope py_scope.

Section Steps.
Variable R : State → State → Prop.
Hypothesis R_refl : ∀ st, R st st.
Hypothesis R_trans : ∀ s1 s2 s3, R s1 s2 → R s2 s3 → R s1 s3.

Lemma steps_ret {A} (a : A) : steps R (ret a).
Proof. intros st. apply R_refl. Qed.

Lemma steps_raise {A} (e : exn) : steps R (@raise A e).
Proof. intros st. apply R_refl. Qed.

Lemma steps_call {A} (r : outcome A) : steps R (call r).
Proof. intros st. apply R_refl. Qed.

Lemma steps_gets {A} (f : State → A) : steps R (gets f).
Proof. intros st. apply R_refl. Qed.

Lemma steps_bind {A B} (m : M A) (k : A → M B) :
steps R m → (∀ a, steps R (k a)) → steps R (bind m k).
Proof.
intros Hm Hk st. unfold bind. specialize (Hm st).
destruct (m st) as [[a|e] st1]; [|done].
eapply R_trans; [exact Hm|]. apply Hk.
Qed.

Lemma steps_try_except {A} (body : M A) (handler : exn → M A) :
steps R body → (∀ e, steps R (handler e)) → steps R (try_except body handler).
Proof.
intros Hm Hk st. unfold try_except. specialize (Hm st).
destruct (body st) as [[a|e] st1]; [done|].
eapply R_trans; [exact Hm|]. apply Hk.
Qed.

Lemma steps_when (b : bool) (m : M unit) : steps R m → steps R (when b m).
Proof. intros Hm. destruct b; [done|]. apply steps_ret. Qed.

Lemma steps_modify (f : State → State) : (∀ st, R st (f st)) → steps R (modify f).
Proof. intros Hf st. apply Hf. Qed.
End Steps.


Ltac head_of t := lazymatch t with ?f _ => head_of f | _ => t end.

Ltac walk refl trans known leaf :=
repeat (
  lazymatch goal with
  | |- steps _ (ret _) => apply (steps_ret _ refl)
  | |- steps _ (raise _) => apply (steps_raise _ refl)
  | |- steps _ (call _) => apply (steps_call _ refl)
  | |- steps _ (gets _) => apply (steps_gets _ refl)
  | |- steps _ (bind _ _) => apply (steps_bind _ trans); [ | intros ? ]
  | |- steps _ (try_except _ _) => apply (steps_try_except _ trans); [ | intros ? ]
  | |- steps _ (when _ _) => apply (steps_when _ refl)
  | |- steps _ (modify _) => apply steps_modify; intros ?; solve [leaf]
  | |- steps _ (match ?x with _ => _ end) => destruct x
  | |- steps _ (let _ := _ in _) => cbv zeta
  | |- steps _ ?m => first [ solve [known] | let h := head_of m in progress unfold h ]
  end).

Lemma collecting_refl st : collecting st st.
Proof. split; [done|]. exists []. by rewrite app_nil_r. Qed.

Lemma collecting_trans s1 s2 s3 : collecting s1 s2 → collecting s2 s3 → collecting s1 s3.
Proof.
intros [He1 (evs1 & Ht1 & Hb1)] [He2 (evs2 & Ht2 & Hb2)].
split; [congruence|]. exists (evs1 ++ evs2).
rewrite Ht2, Ht1, app_assoc. split; [done|]. by apply Forall_app.
Qed.

Ltac collecting_leaf :=
split; [reflexivity|];
first [ exists []; split; [by rewrite app_nil_r | by constructor]
      | eexists [_]; split; [reflexivity|]; by repeat constructor ].

Ltac collect_walk known :=
walk collecting_refl collecting_trans known collecting_leaf.

Lemma collecting_checks_d_loop checks : steps collecting (checks_d_loop checks).
Proof.
induction checks as [|check rest IH]; cbn [checks_d_loop];
  collect_walk ltac:(exact IH).
Qed.

Lemma collecting_init_failed_loop items : steps collecting (init_failed_loop items).
Proof.
induction items as [|[check_name info] rest IH]; cbn [init_failed_loop];
  collect_walk ltac:(exact IH).
Qed.

Lemma collecting_resources_loop checks has : steps collecting (resources_loop checks has).
Proof.
revert has. induction checks as [|check rest IH]; intros has; cbn [resources_loop];
  collect_walk ltac:(apply IH).
Qed.

Lemma collecting_metrics_checks_loop checks : steps collecting (metrics_checks_loop checks).
Proof.
induction checks as [|check rest IH]; cbn [metrics_checks_loop];
  collect_walk ltac:(exact IH).
Qed.

Lemma collecting_external_host_tags_loop checks tags :
steps collecting (external_host_tags_loop checks tags).
Proof.
revert tags. induction checks as [|check rest IH]; intros tags;
  cbn [external_host_tags_loop]; collect_walk ltac:(apply IH).
Qed.

Lemma collecting_agent_checks_loop w statuses acc :
steps collecting (agent_checks_loop w statuses acc).
Proof.
revert acc. induction statuses as [|check rest IH]; intros acc;
  cbn [agent_checks_loop]; collect_walk ltac:(apply IH).
Qed.

Create HintDb collecting.
Hint Resolve collecting_checks_d_loop collecting_init_failed_loop
collecting_resources_loop collecting_metrics_checks_loop
collecting_external_host_tags_loop collecting_agent_checks_loop : collecting.

Lemma collecting_before_loops w checksd : steps collecting (before_loops w checksd).
Proof. unfold before_loops. collect_walk ltac:(auto with collecting nocore).
Qed.

Lemma collecting_loops : steps collecting loops.
Proof. unfold loops. collect_walk ltac:(auto with collecting nocore). Qed.

Lemma collecting_populate w cs se : steps collecting (_populate_payload_metadata w cs se).
Proof. unfold _populate_payload_metadata. collect_walk ltac:(auto with collecting nocore).
Qed.

Lemma checks_d_loop_app ran rest st s :
checks_d_loop ran st = (Done Next, s) →
checks_d_loop (ran ++ rest) st = checks_d_loop rest s.
Proof.
revert st. induction ran as [|check ran IH]; intros st; simpl.
- unfold ret. by intros [= ->].
- unfold bind, gets, ret. destruct (continue_running (self st)); simpl; [|done].
  destruct (run_check check st) as [[[]|e] st1]; [|done].
  apply IH.
Qed.

Lemma init_failed_loop_app ran rest st s :
init_failed_loop ran st = (Done Next, s) →
init_failed_loop (ran ++ rest) st = init_failed_loop rest s.
Proof.
revert st. induction ran as [|[check_name info] ran IH]; intros st; simpl.
- unfold ret. by intros [= ->].
- unfold bind, gets, ret. destruct (continue_running (self st)); simpl; [|done].
  apply IH.
Qed.

Lemma benign_not_sent evs :
Forall benign evs →
List.filter is_emitter_call evs = [] ∧ List.filter is_persist evs = [].
Proof.
induction 1 as [|ev evs Hev _ [IH1 IH2]]; [done|].
destruct ev; try done; simpl; by rewrite ?IH1, ?IH2.
Qed.

Lemma collecting_not_sent st st' :
collecting st st' →
List.filter is_emitter_call (trace st') = List.filter is_emitter_call (trace st)
∧ List.filter is_persist (trace st') = List.filter is_persist (trace st).
Proof.
intros [_ (evs & -> & Hevs)]. apply benign_not_sent in Hevs as [H1 H2].
by rewrite !List.filter_app, H1, H2, !app_nil_r.
Qed.

(** C9. When the stop signal is seen at the top of the loop over the
  initialised sources, or of the loop over the sources that failed to
  initialise, the loop returns at once in the state [s] in which it saw
  the signal, the cycle returns [None] in that same state, and no
  emitter was called and no status persisted in the cycle. *)
Theorem stop_signal_aborts_cycle (w : World)
  (checksd : option (list Check.t * list (string * InitFailure.t)))
  (start_event : bool) (c : Collector.t) (st0 s : State) :
before_loops w checksd (enter c) = (Done tt, st0) →
continue_running (self s) = false →
(∀ ran check rest,
    initialized_checks_d (self st0) = ran ++ check :: rest →
    checks_d_loop ran st0 = (Done Next, s) →
    checks_d_loop (check :: rest) s = (Done Return_, s)
    ∧ run w checksd start_event (enter c) = (Done None, s)
    ∧ List.filter is_emitter_call (trace s) = []
    ∧ List.filter is_persist (trace s) = [])
∧ (∀ s1 ran item rest,
    checks_d_loop (initialized_checks_d (self st0)) st0 = (Done Next, s1) →
    init_failed_checks_d (self s1) = ran ++ item :: rest →
    init_failed_loop ran s1 = (Done Next, s) →
    init_failed_loop (item :: rest) s = (Done Return_, s)
    ∧ run w checksd start_event (enter c) = (Done None, s)
    ∧ List.filter is_emitter_call (trace s) = []
    ∧ List.filter is_persist (trace s) = []).
Proof.
intros Hbefore Hstop.
assert (collecting (enter c) st0) as Hc0.
{ pose proof (collecting_before_loops w checksd (enter c)) as H.
  by rewrite Hbefore in H. }
split.
- intros ran check rest Hlist Hran.
  assert (checks_d_loop (check :: rest) s = (Done Return_, s)) as Htop.
  { simpl. unfold bind, gets, ret. by rewrite Hstop. }
  split; [done|].
  assert (checks_d_loop (initialized_checks_d (self st0)) st0 = (Done Return_, s))
    as Hloop.
  { rewrite Hlist. by rewrite (checks_d_loop_app _ _ _ _ Hran). }
  split.
  + unfold run, collect, loops, bind, gets, ret.
    rewrite Hbefore. by rewrite Hloop.
  + assert (collecting st0 s) as Hc1.
    { pose proof (collecting_checks_d_loop ran st0) as H. by rewrite Hran in H. }
    apply (collecting_not_sent (enter c) s).
    by apply (collecting_trans _ st0).
- intros s1 ran [check_name info] rest Hfirst Hlist Hran.
  assert (init_failed_loop ((check_name, info) :: rest) s = (Done Return_, s)) as Htop.
  { simpl. unfold bind, gets, ret. by rewrite Hstop. }
  split; [done|].
  assert (init_failed_loop (init_failed_checks_d (self s1)) s1 = (Done Return_, s))
    as Hloop.
  { rewrite Hlist. by rewrite (init_failed_loop_app _ _ _ _ Hran). }
  split.
  + unfold run, collect, loops, bind, gets, ret.
    rewrite Hbefore, Hfirst. by rewrite Hloop.
  + assert (collecting st0 s1) as Hc1.
    { pose proof (collecting_checks_d_loop (initialized_checks_d (self st0)) st0) as H.
      by rewrite Hfirst in H. }
    assert (collecting s1 s) as Hc2.
    { pose proof (collecting_init_failed_loop ran s1) as H. by rewrite Hran in H. }
    apply (collecting_not_sent (enter c) s).
    apply (collecting_trans _ st0); [done|]. by apply (collecting_trans _ s1).
Qed.

Lemma stop_signal_aborts_cycle_witness :
let checksd := Some ([last_one; good], []) in
let st0 := (before_loops plain_world checksd (enter c0)).2 in
let s := (checks_d_loop [last_one] st0).2 in
let checksd' := Some ([last_one], [("broken_check", {| InitFailure.error := VStr "no module";
                                                      InitFailure.traceback := VStr "tb" |})]) in
let st0' := (before_loops plain_world checksd' (enter c0)).2 in
let s' := (checks_d_loop [last_one] st0').2 in
(continue_running (self s) = false
 ∧ run plain_world checksd true (enter c0) = (Done None, s)
 ∧ List.filter is_emitter_call (trace s) = []
 ∧ List.filter is_persist (trace s) = [])
∧ (continue_running (self s') = false
   ∧ run plain_world checksd' true (enter c0) = (Done None, s')
   ∧ List.filter is_emitter_call (trace s') = []
   ∧ List.filter is_persist (trace s') = []).
Proof.
intros checksd st0 s checksd' st0' s'. split.
- split; [vm_compute; reflexivity|].
  assert (before_loops plain_world checksd (enter c0) = (Done tt, st0)) as Hbefore
    by (vm_compute; reflexivity).
  assert (continue_running (self s) = false) as Hstop by (vm_compute; reflexivity).
  destruct (stop_signal_aborts_cycle plain_world checksd true c0 st0 s Hbefore Hstop)
    as [Hloop _].
  apply (Hloop [last_one] good []); vm_compute; reflexivity.
- split; [vm_compute; reflexivity|].
  assert (before_loops plain_world checksd' (enter c0) = (Done tt, st0')) as Hbefore
    by (vm_compute; reflexivity).
  assert (continue_running (self s') = false) as Hstop by (vm_compute; reflexivity).
  destruct (stop_signal_aborts_cycle plain_world checksd' true c0 st0' s' Hbefore Hstop)
    as [_ Hloop].
  apply (Hloop s' [] ("broken_check", {| InitFailure.error := VStr "no module";
                                         InitFailure.traceback := VStr "tb" |}) []);
    vm_compute; reflexivity.
Defined.

Lemma feeding_refl d st : feeding d st st.
Proof. intros Hd. split; [done|]. exists []. by rewrite app_nil_r. Qed.

Lemma feeding_trans d s1 s2 s3 : feeding d s1 s2 → feeding d s2 s3 → feeding d s1 s3.
Proof.
intros H1 H2 Hd. destruct (H1 Hd) as [Hd2 (evs1 & Ht1 & Hb1)].
destruct (H2 Hd2) as [Hd3 (evs2 & Ht2 & Hb2)].
split; [done|]. exists (evs1 ++ evs2).
rewrite Ht2, Ht1, app_assoc. split; [done|]. by apply Forall_app.
Qed.

Lemma benign_fed_with d ev : benign ev → fed_with d ev.
Proof. by destruct ev. Qed.

Lemma collecting_feeding d st st' : collecting st st' → feeding d st st'.
Proof.
intros [He (evs & Ht & Hb)] Hd. split; [congruence|].
exists evs. split; [done|]. eapply Forall_impl; [exact Hb|]. apply benign_fed_with.
Qed.

Lemma steps_collecting_feeding {A} d (m : M A) : steps collecting m → steps (feeding d) m.
Proof. intros H st. apply collecting_feeding, H. Qed.

Lemma collecting_stop : steps collecting stop.
Proof. unfold stop. collect_walk idtac. Qed.

Lemma collecting_payload_item_extend key items :
steps collecting (payload_item_extend key items).
Proof. unfold payload_item_extend. collect_walk idtac. Qed.

Lemma feeding_run_agent_metrics d w cd cpu :
steps (feeding d) (run_agent_metrics w cd cpu).
Proof.
intros st. unfold run_agent_metrics, bind at 1, gets at 1. cbv beta iota.
destruct (_agent_metrics (self st)) as [am|]; [|by apply feeding_refl].
unfold bind at 1, tell at 1, modify at 1. cbv beta iota.
set (st1 := with_trace _ st).
assert (feeding d st st1) as H1.
{ intros Hd. split; [done|]. eexists [_]. split; [reflexivity|].
  repeat constructor. exact Hd. }
refine (feeding_trans d st st1 _ H1 (steps_collecting_feeding d _ _ st1)).
collect_walk ltac:(first [apply collecting_stop | apply collecting_payload_item_extend]).
Qed.

Hint Resolve collecting_populate collecting_stop collecting_payload_item_extend : collecting.

Ltac feeding_walk d :=
walk (feeding_refl d) (feeding_trans d)
  ltac:(first [ apply feeding_run_agent_metrics
              | apply steps_collecting_feeding; auto with collecting nocore ])
  ltac:(apply collecting_feeding; collecting_leaf).

Lemma feeding_complete_payload d w se : steps (feeding d) (complete_payload w se).
Proof. unfold complete_payload. feeding_walk d. Qed.

Lemma silent_refl st : silent st st.
Proof. exists []. by rewrite app_nil_r. Qed.

Lemma silent_trans s1 s2 s3 : silent s1 s2 → silent s2 s3 → silent s1 s3.
Proof.
intros (evs1 & Ht1 & Hb1) (evs2 & Ht2 & Hb2). exists (evs1 ++ evs2).
rewrite Ht2, Ht1, app_assoc. split; [done|]. by apply Forall_app.
Qed.

Lemma _emit_loop_not_context cr payload endpoint emitters statuses :
Forall not_context (AgentPayload._emit_loop cr payload endpoint emitters statuses).2.
Proof.
destruct cr.
- rewrite _emit_loop_running. cbn. apply Forall_bind, Forall_forall.
  intros e _. unfold AgentPayload.events_of, AgentPayload.call_of.
  constructor; [exact I|].
  destruct (emitter_call _ _ _); by repeat constructor.
- by rewrite _emit_loop_stopped.
Qed.

Lemma emit_not_context p emitters cr merge :
Forall not_context (AgentPayload.emit p emitters cr merge).2.
Proof.
unfold AgentPayload.emit, AgentPayload._emit_payload. destruct merge.
- pose proof (_emit_loop_not_context cr (AgentPayload.payload p)
                AgentPayload.COMMON_ENDPOINT emitters []) as H.
  by destruct (AgentPayload._emit_loop _ _ _ _ _).
- pose proof (_emit_loop_not_context cr (AgentPayload.data_payload p)
                AgentPayload.DATA_ENDPOINT emitters []) as H1.
  pose proof (_emit_loop_not_context cr (AgentPayload.meta_payload p)
                AgentPayload.METADATA_ENDPOINT emitters []) as H2.
  destruct (AgentPayload._emit_loop _ _ _ _ _), (AgentPayload._emit_loop _ _ _ _ _).
  by apply Forall_app.
Qed.

Ltac silent_leaf :=
first [ exists []; split; [by rewrite app_nil_r | by constructor]
      | eexists [_]; split; [reflexivity|]; by repeat constructor
      | eexists; split; [reflexivity|]; apply emit_not_context ].

Lemma silent_send_payload w cd : steps silent (send_payload w cd).
Proof.
unfold send_payload. walk silent_refl silent_trans idtac silent_leaf.
Qed.

Lemma collecting_collect w checksd : steps collecting (collect w checksd).
Proof.
unfold collect. apply (steps_bind _ collecting_trans).
- apply collecting_before_loops.
- intros _. apply collecting_loops.
Qed.

Lemma not_context_fed_with d ev : not_context ev → fed_with d ev.
Proof. by destruct ev. Qed.

Lemma run_feeds w checksd se c :
Forall (fed_with (emit_duration c)) (trace (run w checksd se (enter c)).2).
Proof.
set (d := emit_duration c).
pose proof (collecting_collect w checksd (enter c)) as Hc.
unfold run, finish_run, bind, ret.
destruct (collect w checksd (enter c)) as [[[]|e] s1];
  destruct Hc as [He (evs1 & Ht1 & Hb1)];
  cbn [snd fst trace enter app self] in He, Ht1;
  pose proof (Forall_impl _ _ _ Hb1 (benign_fed_with d)) as Hf1.
- pose proof (feeding_complete_payload d w se s1) as Hp.
  destruct (complete_payload w se s1) as [[cd|e] s2];
    destruct (Hp He) as [He2 (evs2 & Ht2 & Hb2)]; cbn [snd] in Ht2.
  + pose proof (silent_send_payload w cd s2) as (evs3 & Ht3 & Hb3).
    pose proof (Forall_impl _ _ _ Hb3 (not_context_fed_with d)) as Hf3.
    rewrite Ht3, Ht2, Ht1. by repeat apply Forall_app_2.
  + cbn [snd]. rewrite Ht2, Ht1. by apply Forall_app_2.
- cbn [snd]. by rewrite Ht1.
- cbn [snd]. by rewrite Ht1.
Qed.

Lemma keeping_refl st : keeping st st. Proof. done. Qed.
Lemma keeping_trans s1 s2 s3 : keeping s1 s2 → keeping s2 s3 → keeping s1 s3.
Proof. unfold keeping. congruence. Qed.

Lemma keeping_conclude w cd es : steps keeping (conclude w cd es).
Proof. unfold conclude. walk keeping_refl keeping_trans idtac ltac:(reflexivity). Qed.

Lemma send_payload_records w cd st :
emit_duration (self (send_payload w cd st).2) = Some (timer_emit w).
Proof.
unfold send_payload, bind, gets, tells, assign_self, modify. cbv beta iota zeta.
match goal with
| |- context [conclude w cd ?es ?s] =>
    pose proof (keeping_conclude w cd es s) as H
end.
unfold keeping in H. rewrite H. reflexivity.
Qed.

Lemma completed_run_records w checksd se c p st' :
run w checksd se (enter c) = (Done (Some p), st') →
emit_duration (self st') = Some (timer_emit w).
Proof.
unfold run, finish_run, bind.
destruct (collect w checksd (enter c)) as [[[]|e] s1];
  [|intros [=]|intros [=]].
destruct (complete_payload w se s1) as [[cd|e] s2]; [|intros [=]].
intros H. pose proof (send_payload_records w cd s2) as Hr.
rewrite H in Hr. exact Hr.
Qed.

Lemma bind_done_inv {A B} (m : M A) (k : A → M B) st b st' :
bind m k st = (Done b, st') →
∃ a s, m st = (Done a, s) ∧ k a s = (Done b, st').
Proof.
unfold bind. destruct (m st) as [[a|e] s]; [|intros [=]].
intros H. by exists a, s.
Qed.

Lemma steps_result R {A} (m : M A) st r st' : steps R m → m st = (r, st') → R st st'.
Proof. intros Hm Hr. specialize (Hm st). by rewrite Hr in Hm. Qed.

Lemma same_agent_refl st : same_agent st st. Proof. done. Qed.
Lemma same_agent_trans s1 s2 s3 : same_agent s1 s2 → same_agent s2 s3 → same_agent s1 s3.
Proof. unfold same_agent. congruence. Qed.

Ltac agent_walk := walk same_agent_refl same_agent_trans idtac ltac:(reflexivity).

Lemma same_agent_send_payload w cd : steps same_agent (send_payload w cd).
Proof. unfold send_payload. agent_walk. Qed.

Lemma same_agent_run_agent_metrics w cd cpu : steps same_agent (run_agent_metrics w cd cpu).
Proof. unfold run_agent_metrics. agent_walk. Qed.

Lemma run_agent_metrics_sets w cd cpu st st' am :
run_agent_metrics w cd cpu st = (Done tt, st') →
_agent_metrics (self st) = Some am →
∃ before after,
  trace st' = before ++ SetMetricContext cd (emit_duration (self st)) cpu :: after.
Proof.
intros Hrun Ham. unfold run_agent_metrics in Hrun.
apply bind_done_inv in Hrun as (c & s0 & Hc & Hrun).
unfold gets in Hc. injection Hc as <- <-. rewrite Ham in Hrun.
apply bind_done_inv in Hrun as ([] & s1 & Htell & Hrest).
unfold tell, modify in Htell. injection Htell as <-.
match type of Hrest with
| ?m _ = _ => assert (steps collecting m) as Hsteps
end.
{ collect_walk ltac:(auto with collecting nocore). }
destruct (steps_result _ _ _ _ _ Hsteps Hrest) as [_ (evs & -> & _)].
cbn [trace with_trace]. exists (trace st), evs. by rewrite <- app_assoc.
Qed.

Lemma complete_payload_inv w se s1 cd s2 :
complete_payload w se s1 = (Done cd, s2) →
∃ s cpu, collecting s1 s
  ∧ run_agent_metrics w (timer_collect w) cpu s = (Done tt, s2).
Proof.
intros H. unfold complete_payload in H.
apply bind_done_inv in H as (c & sa & Ha & H).
apply bind_done_inv in H as ([] & sb & Hb & H).
apply bind_done_inv in H as ([] & sc & Hc & H).
apply bind_done_inv in H as ([] & sd & Hd & H).
apply bind_done_inv in H as ([] & se' & He & H).
apply bind_done_inv in H as (f & sf & Hf & H).
apply bind_done_inv in H as ([] & sg & Hg & H).
apply bind_done_inv in H as ([] & sh & Hh & H).
unfold ret in H. injection H as _ <-.
assert (collecting s1 sg) as Hcol.
{ assert (∀ A (m : M A) st r st',
            steps collecting m → m st = (r, st') → collecting st st') as Hstep
    by (intros; by eapply steps_result).
  apply (collecting_trans _ sa); [eapply Hstep; [|exact Ha]|].
  2: apply (collecting_trans _ sb); [eapply Hstep; [|exact Hb]|].
  3: apply (collecting_trans _ sc); [eapply Hstep; [|exact Hc]|].
  4: apply (collecting_trans _ sd); [eapply Hstep; [|exact Hd]|].
  5: apply (collecting_trans _ se'); [eapply Hstep; [|exact He]|].
  6: apply (collecting_trans _ sf); [eapply Hstep; [|exact Hf]|].
  7: eapply Hstep; [|exact Hg].
  all: collect_walk ltac:(auto with collecting nocore). }
exists sg. destruct (negb _); eauto.
Qed.

Lemma context_is_set w checksd se c p st' am :
run w checksd se (enter c) = (Done (Some p), st') →
_agent_metrics (self st') = Some am →
∃ before after collection_time cpu,
  trace st' = before ++ SetMetricContext collection_time (emit_duration c) cpu :: after.
Proof.
intros Hrun Ham. unfold run in Hrun.
apply bind_done_inv in Hrun as (fl & s1 & Hcollect & Hrun).
destruct fl; [|by unfold ret in Hrun].
unfold finish_run in Hrun.
apply bind_done_inv in Hrun as (cd & s2 & Hcomplete & Hsend).
apply complete_payload_inv in Hcomplete as (s & cpu & Hcol & Hagent).
pose proof (steps_result _ _ _ _ _ (collecting_collect w checksd) Hcollect) as Hcol1.
pose proof (collecting_trans _ _ _ Hcol1 Hcol) as [Hed _].
pose proof (steps_result _ _ _ _ _ (same_agent_send_payload w cd) Hsend) as Hsame2.
pose proof (steps_result _ _ _ _ _
              (same_agent_run_agent_metrics w _ cpu) Hagent) as Hsame1.
unfold same_agent in Hsame1, Hsame2. rewrite Ham in Hsame2.
rewrite <- Hsame2 in Hsame1. symmetry in Hsame1.
destruct (run_agent_metrics_sets _ _ _ _ _ _ Hagent Hsame1) as (before & after & Ht).
destruct (steps_result _ _ _ _ _ (silent_send_payload w cd) Hsend) as (evs & -> & _).
rewrite Ht, Hed. cbn [enter self].
exists before, (after ++ evs), (timer_collect w), cpu.
by rewrite <- app_assoc.
Qed.

(** C10. The emit time given to the agent metrics check in a cycle is the
  [emit_duration] that the collector holds when the cycle starts: [None]
  in the cycle that follows [__init__], and after a cycle that ran to
  its end, the emission time that this cycle measured. When the later
  cycle runs to its end with an agent metrics check, the context is
  given to the check. *)
Theorem emit_time_is_one_cycle_stale (w1 w2 : World)
  (checksd1 checksd2 : option (list Check.t * list (string * InitFailure.t)))
  (start_event1 start_event2 : bool) (c : Collector.t)
  (p : AgentPayload.t) (st1 : State) :
run w1 checksd1 start_event1 (enter c) = (Done (Some p), st1) →
emit_duration (self st1) = Some (timer_emit w1)
∧ Forall (fed_with (Some (timer_emit w1)))
    (trace (run w2 checksd2 start_event2 (enter (self st1))).2)
∧ (∀ p2 st2 agent,
     run w2 checksd2 start_event2 (enter (self st1)) = (Done (Some p2), st2) →
     _agent_metrics (self st2) = Some agent →
     ∃ before after collection_time cpu,
       trace st2
       = before ++ SetMetricContext collection_time (Some (timer_emit w1)) cpu :: after)
∧ (∀ w time_time agentConfig emitters systemStats hostname sources metrics_checks
     resources_checks,
     Forall (fed_with None)
       (trace (run w2 checksd2 start_event2
                 (enter (__init__ w time_time agentConfig emitters systemStats hostname
                                  sources metrics_checks resources_checks))).2)).
Proof.
intros Hrun. pose proof (completed_run_records _ _ _ _ _ _ Hrun) as Hrec.
split; [done|]. split; [|split].
- rewrite <- Hrec. apply run_feeds.
- intros p2 st2 agent Hrun2 Hagent. rewrite <- Hrec.
  exact (context_is_set _ _ _ _ _ _ _ Hrun2 Hagent).
- intros. apply (run_feeds w2 checksd2 start_event2 (__init__ _ _ _ _ _ _ _ _ _)).
Qed.

Lemma emit_time_is_one_cycle_stale_witness :
let checksd := Some ([good; agent_metrics], []) in
let first := run plain_world checksd true (enter c0) in
let later := run (world_with (Done (VStr "{}", VStr "")) 5) checksd true
                 (enter (self first.2)) in
first.1 ≠ Done None
∧ emit_duration (self first.2) = Some 3%Z
∧ Forall (fed_with (Some 3%Z)) (trace later.2)
∧ List.filter is_context (trace first.2) = [SetMetricContext 7 None (Some 1%Z)]
∧ List.filter is_context (trace later.2) = [SetMetricContext 7 (Some 3%Z) (Some 1%Z)].
Proof.
intros checksd first later.
assert (∃ p, first = (Done (Some p), first.2)) as [p Hfirst]
  by (eexists; vm_compute; reflexivity).
destruct (emit_time_is_one_cycle_stale plain_world
            (world_with (Done (VStr "{}", VStr "")) 5) checksd checksd true true
            c0 p first.2 Hfirst) as (Hrec & Hfed & _).
split; [vm_compute; discriminate|]. split; [exact Hrec|]. split; [exact Hfed|].
split; vm_compute; reflexivity.
Defined.

Lemma events_not_metadata : "events" ∉ AgentPayload.METADATA_KEYS.
Proof. apply (bool_decide_unpack _). vm_compute. exact I. Qed.

Lemma getitem_data key p :
key ∉ AgentPayload.METADATA_KEYS →
AgentPayload.__getitem__ key p = AgentPayload.dict_getitem key (AgentPayload.data_payload p).
Proof. intros H. unfold AgentPayload.__getitem__. by destruct (decide _). Qed.




Lemma resources_not_metadata : "resources" ∉ AgentPayload.METADATA_KEYS.
Proof. apply (bool_decide_unpack _). vm_compute. exact I. Qed.

Lemma internalHostname_not_metadata : "internalHostname" ∉ AgentPayload.METADATA_KEYS.
Proof. apply (bool_decide_unpack _). vm_compute. exact I. Qed.

Lemma with_resources_twice d1 d2 st :
with_resources d2 (with_resources d1 st) = with_resources d2 st.
Proof. unfold with_resources, with_locals. cbn. by rewrite insert_insert_eq. Qed.

Lemma with_resources_lookup d st :
AgentPayload.data_payload (payload (locals (with_resources d st))) !! "resources"
= Some (VDict d).
Proof. cbn. by rewrite lookup_insert_eq. Qed.

Lemma payload_item_setitem_resources st d sub v :
AgentPayload.data_payload (payload (locals st)) !! "resources" = Some (VDict d) →
payload_item_setitem "resources" sub v st
= (Done tt, with_resources (<[sub := v]> d) st).
Proof.
intros Hd. unfold payload_item_setitem, payload_getitem, store_back, bind, gets,
  call, assign, modify.
rewrite getitem_data by apply resources_not_metadata.
unfold AgentPayload.dict_getitem. rewrite Hd.
destruct (decide _) as [H|_]; [by destruct resources_not_metadata|]. done.
Qed.

Lemma resources_loop_quiet rcs has st :
Forall (fun rc => ResourceCheck.check rc = Done tt
                  ∧ ResourceCheck.pop_snapshots rc = Done []) rcs →
resources_loop rcs has st = (Done has, st).
Proof.
revert has. induction 1 as [|rc rcs [Hc Hp] _ IH]; [done|].
cbn [resources_loop]. unfold bind, call. rewrite Hc, Hp. cbn. apply IH.
Qed.

Lemma resources_loop_step rc rcs has st d snaps fv rf :
ResourceCheck.check rc = Done tt →
ResourceCheck.pop_snapshots rc = Done snaps →
ResourceCheck.get_format_version rc = Done fv →
ResourceCheck.describe_format_if_needed rc = Done rf →
AgentPayload.data_payload (payload (locals st)) !! "resources" = Some (VDict d) →
resources_loop (rc :: rcs) has st
= if nonempty snaps
  then resources_loop rcs true
         (with_resources (<[ResourceCheck.RESOURCE_KEY rc :=
                              VDict (res_value_of snaps fv rf)]> d) st)
  else resources_loop rcs has st.
Proof.
intros Hc Hp Hfv Hrf Hd. cbn [resources_loop]. unfold bind, call, ret.
rewrite Hc, Hp. destruct (nonempty snaps); [|done].
rewrite Hfv, Hrf. unfold res_value_of.
destruct rf; by rewrite (payload_item_setitem_resources st d).
Qed.

Lemma foldl_no_contribution rcs d :
existsb contributes rcs = false → foldl add_contribution d rcs = d.
Proof.
revert d. induction rcs as [|rc rcs IH]; intros d; [done|].
cbn [existsb foldl]. intros [Hrc Hrcs]%orb_false_iff.
rewrite IH by done. unfold add_contribution.
apply bool_decide_eq_false in Hrc.
destruct (contribution rc); [|done]. destruct Hrc. by eexists.
Qed.

Lemma resources_loop_spec rcs : ∀ has st d,
Forall answers rcs →
AgentPayload.data_payload (payload (locals st)) !! "resources" = Some (VDict d) →
resources_loop rcs has st
= (Done (has || existsb contributes rcs),
   if existsb contributes rcs
   then with_resources (foldl add_contribution d rcs) st else st).
Proof.
induction rcs as [|rc rcs IH]; intros has st d Hans Hd.
- cbn. by rewrite orb_false_r.
- apply Forall_cons in Hans as [(Hc & [snaps Hp] & [fv Hfv] & [rf Hrf]) Hans].
  rewrite (resources_loop_step rc rcs has st d snaps fv rf) by done.
  cbn [existsb foldl]. unfold contributes at 1 3, add_contribution at 2, contribution.
  rewrite Hp, Hfv, Hrf.
  destruct (nonempty snaps) eqn:Hne.
  + rewrite (IH true _ _ Hans (with_resources_lookup _ st)).
    rewrite bool_decide_eq_true_2 by (by eexists). cbn [orb].
    rewrite orb_true_r.
    destruct (existsb contributes rcs) eqn:Hrest;
      [by rewrite with_resources_twice|].
    by rewrite foldl_no_contribution.
  + rewrite (IH has st d Hans Hd).
    rewrite bool_decide_eq_false_2 by (by intros [? ?]). done.
Qed.

Lemma foldl_contribution_other rcs d k :
k ∉ ResourceCheck.RESOURCE_KEY <$> rcs →
foldl add_contribution d rcs !! k = d !! k.
Proof.
revert d. induction rcs as [|rc rcs IH]; intros d Hk; [done|].
rewrite fmap_cons in Hk. apply not_elem_of_cons in Hk as [Hne Hk].
cbn [foldl]. rewrite IH by done. unfold add_contribution.
destruct (contribution rc); [|done]. by rewrite lookup_insert_ne.
Qed.

Lemma foldl_contribution_lookup rcs d rc entry :
NoDup (ResourceCheck.RESOURCE_KEY <$> rcs) →
rc ∈ rcs →
contribution rc = Some entry →
foldl add_contribution d rcs !! ResourceCheck.RESOURCE_KEY rc = Some (VDict entry).
Proof.
revert d. induction rcs as [|rc' rcs IH]; intros d Hnodup Hin Hentry.
- by apply elem_of_nil in Hin.
- rewrite fmap_cons in Hnodup. apply NoDup_cons in Hnodup as [Hfresh Hnodup].
  cbn [foldl]. apply elem_of_cons in Hin as [->|Hin].
  + rewrite foldl_contribution_other by done.
    unfold add_contribution. rewrite Hentry. by rewrite lookup_insert_eq.
  + by apply IH.
Qed.

(** C7. On a host that is not Windows, with resource sources that answer:
  when no source pops a snapshot, the step leaves the payload as it is,
  so that a resources block without 'meta' entry stays without it; when
  at least one source pops snapshots, every such source has its entry
  (snaps, format_version and, when there is one, format_description)
  under its resource key, and the block has a 'meta' entry with the
  agent key and the internalHostname of the payload. *)
Theorem resources_meta_gating (st : State) (d : gmap string value) (host : value) :
os (self st) ≠ "windows" →
Forall answers (_resources_checks (self st)) →
AgentPayload.data_payload (payload (locals st)) !! "resources" = Some (VDict d) →
d !! "meta" = None →
AgentPayload.data_payload (payload (locals st)) !! "internalHostname" = Some host →
NoDup (ResourceCheck.RESOURCE_KEY <$> _resources_checks (self st)) →
"meta" ∉ ResourceCheck.RESOURCE_KEY <$> _resources_checks (self st) →
(Forall (fun rc => ResourceCheck.pop_snapshots rc = Done [])
        (_resources_checks (self st)) →
   run_resources_checks st = (Done tt, st)
   ∧ ∃ d', AgentPayload.__getitem__ "resources" (payload (locals st)) = Done (VDict d')
           ∧ d' !! "meta" = None)
∧ (existsb contributes (_resources_checks (self st)) = true →
   ∃ d',
     run_resources_checks st = (Done tt, with_resources d' st)
     ∧ d' !! "meta"
       = Some (VDict (<["host" := host]>
                        {[ "agent_key" := agent_key (agentConfig (self st)) ]}))
     ∧ ∀ rc snaps format_version res_format,
         rc ∈ _resources_checks (self st) →
         ResourceCheck.pop_snapshots rc = Done snaps →
         snaps ≠ [] →
         ResourceCheck.get_format_version rc = Done format_version →
         ResourceCheck.describe_format_if_needed rc = Done res_format →
         d' !! ResourceCheck.RESOURCE_KEY rc
         = Some (VDict (res_value_of snaps format_version res_format))).
Proof.
intros Hos Hans Hd Hmeta Hhost Hnodup Hkeys.
assert (String.eqb (os (self st)) "windows" = false) as Heqb
  by (by apply String.eqb_neq).
split.
- intros Hquiet. unfold run_resources_checks, bind, gets, when.
  rewrite Heqb. cbn [negb].
  split.
  2: { exists d. rewrite getitem_data by apply resources_not_metadata.
       unfold AgentPayload.dict_getitem. by rewrite Hd. }
  rewrite resources_loop_quiet; [done|].
  apply Forall_forall. intros rc Hrc. split.
  + by destruct (proj1 (Forall_forall _ _) Hans rc Hrc) as (? & _).
  + by apply (proj1 (Forall_forall _ _) Hquiet rc Hrc).
- intros Hsome. eexists. split; [|split].
  + unfold run_resources_checks, bind, gets, when.
    rewrite Heqb. cbn [negb].
    rewrite (resources_loop_spec _ false st d Hans Hd). rewrite Hsome. cbn [orb].
    unfold payload_getitem, bind, gets, call.
    rewrite getitem_data by apply internalHostname_not_metadata.
    unfold AgentPayload.dict_getitem.
    replace (AgentPayload.data_payload (payload (locals (with_resources _ st)))
               !! "internalHostname") with (Some host)
      by (cbn; by rewrite lookup_insert_ne).
    rewrite (payload_item_setitem_resources _ _ _ _ (with_resources_lookup _ st)).
    by rewrite with_resources_twice.
  + by rewrite lookup_insert_eq.
  + intros rc snaps fv rf Hin Hp Hne Hfv Hrf.
    assert (ResourceCheck.RESOURCE_KEY rc ≠ "meta") as Hk.
    { intros Heq. apply Hkeys. rewrite <- Heq. by apply list_elem_of_fmap_2. }
    rewrite lookup_insert_ne by done.
    apply foldl_contribution_lookup; [done..|].
    unfold contribution. rewrite Hp, Hfv, Hrf. by destruct snaps.
Qed.

Lemma resources_meta_gating_witness :
let st := (_build_payload plain_world (enter (collector [processes]))).2 in
existsb contributes (_resources_checks (self st)) = true
∧ ∃ d',
    run_resources_checks st = (Done tt, with_resources d' st)
    ∧ d' !! "meta"
      = Some (VDict (<["host" := VStr "host1"]>
                       {[ "agent_key" := agent_key (agentConfig (self st)) ]}))
    ∧ ∀ rc snaps format_version res_format,
        rc ∈ _resources_checks (self st) →
        ResourceCheck.pop_snapshots rc = Done snaps →
        snaps ≠ [] →
        ResourceCheck.get_format_version rc = Done format_version →
        ResourceCheck.describe_format_if_needed rc = Done res_format →
        d' !! ResourceCheck.RESOURCE_KEY rc
        = Some (VDict (res_value_of snaps format_version res_format)).
Proof.
intros st. split; [vm_compute; reflexivity|].
apply (resources_meta_gating st ∅ (VStr "host1")).
- vm_compute. discriminate.
- repeat constructor; eexists; reflexivity.
- vm_compute. reflexivity.
- reflexivity.
- vm_compute. reflexivity.
- cbn. repeat constructor. apply not_elem_of_nil.
- cbn. intros [H|H]%elem_of_cons; [discriminate|]. by apply elem_of_nil in H.
- vm_compute. reflexivity.
Defined.

(** ** What a cycle has when a step returns *)

Lemma returns_in_bind {A B} P Q R (m : M A) (k : A → M B) :
  returns_in P m Q → (∀ a, returns_in Q (k a) R) → returns_in P (bind m k) R.
Proof.
  intros Hm Hk st b st' HP. unfold bind.
  destruct (m st) as [[a|e] s1] eqn:Hrun; [|discriminate].
  intros Hkrun. exact (Hk a s1 b st' (Hm st a s1 HP Hrun) Hkrun).
Qed.

Lemma returns_in_last {A B} P R (m : M A) (k : A → M B) :
  (∀ a, returns_in (fun _ => True) (k a) R) → returns_in P (bind m k) R.
Proof.
  intros Hk. apply (returns_in_bind P (fun _ => True) R); [|exact Hk].
  intros st a st' _ _. exact I.
Qed.

Lemma returns_in_steps {A} (R : State → State → Prop) P Q (m : M A) :
  steps R m → (∀ st st', P st → R st st' → Q st') → returns_in P m Q.
Proof.
  intros Hsteps Himp st a st' HP Hrun. apply (Himp st st' HP).
  pose proof (Hsteps st) as H. by rewrite Hrun in H.
Qed.

(** ** The checks.d loop: the first source raises *)

Lemma same_metadata_refl st : same_metadata st st. Proof. done. Qed.

Lemma same_metadata_trans s1 s2 s3 :
  same_metadata s1 s2 → same_metadata s2 s3 → same_metadata s1 s3.
Proof. unfold same_metadata. congruence. Qed.

Ltac metadata_walk known :=
  walk same_metadata_refl same_metadata_trans known ltac:(reflexivity).

Lemma same_metadata_resources_loop checks has :
  steps same_metadata (resources_loop checks has).
Proof.
  revert has. induction checks as [|check rest IH]; intros has; cbn [resources_loop];
    metadata_walk ltac:(apply IH).
Qed.

Lemma same_metadata_metrics_checks_loop checks :
  steps same_metadata (metrics_checks_loop checks).
Proof.
  induction checks as [|check rest IH]; cbn [metrics_checks_loop];
    metadata_walk ltac:(exact IH).
Qed.

(** When a cycle reaches its loops, the service metadata of the checks.d
    loop is not bound and no status is recorded yet. *)
Lemma before_loops_binds_no_metadata w checksd :
  returns_in (fun _ => True) (before_loops w checksd)
    (fun st => current_check_metadata (locals st) = None).
Proof.
  unfold before_loops.
  apply (returns_in_bind _ (fun st => current_check_metadata (locals st) = None)).
  - intros st a st' _ [= _ <-]. reflexivity.
  - intros _. apply (returns_in_steps same_metadata).
    + metadata_walk ltac:(idtac; lazymatch goal with
                          | |- steps _ (resources_loop _ _) =>
                              apply same_metadata_resources_loop
                          | |- steps _ (metrics_checks_loop _) =>
                              apply same_metadata_metrics_checks_loop
                          end).
    + unfold same_metadata. congruence.
Qed.

Lemma before_loops_records_no_status w checksd :
  returns_in (fun _ => True) (before_loops w checksd)
    (fun st => check_statuses (locals st) = []).
Proof.
  unfold before_loops.
  repeat (apply returns_in_last; intros ?).
  intros s x s' _ [= _ <-]. reflexivity.
Qed.

(** C1. The code breaks the claim when the first source that a cycle
    runs raises. The exception of the source is caught and logged, but
    [current_check_metadata] is bound only inside the [try], after the
    call that raised, so that building the status record raises
    [UnboundLocalError]: it leaves [run], no status record is appended,
    and nothing else happens in the cycle (no later source runs, nothing
    is emitted), whereas the claim has the record produced, the later
    sources run and the cycle completed. *)
Theorem first_raising_source_aborts_cycle (w : World)
    (checksd : option (list Check.t * list (string * InitFailure.t)))
    (start_event : bool) (st s0 : State) (check : Check.t) (rest : list Check.t)
    (e : exn) :
  before_loops w checksd st = (Done tt, s0) →
  initialized_checks_d (self s0) = check :: rest →
  continue_running (self s0) = true →
  Check.run check = Raised e →
  ∃ st',
    run w checksd start_event st
    = (Raised (UnboundLocalError "current_check_metadata"), st')
    ∧ trace st'
      = trace s0 ++ [ Log INFO ("Running check " +:+ Check.name check);
                      SourceRun (Check.name check);
                      Log EXCEPTION ("Error running check " +:+ Check.name check) ]
    ∧ check_statuses (locals st') = [].
Proof.
  intros Hbefore Hchecks Hrunning Hraise.
  pose proof (before_loops_binds_no_metadata w checksd st tt s0 I Hbefore)
    as Hunbound.
  pose proof (before_loops_records_no_status w checksd st tt s0 I Hbefore)
    as Hnone.
  cbv beta in Hunbound, Hnone.
  unfold run, collect, loops. unfold bind at 1 2. rewrite Hbefore.
  unfold bind at 1 2, gets at 1. rewrite Hchecks. cbn [checks_d_loop].
  unfold bind at 1 2, gets at 1. rewrite Hrunning. cbn [negb].
  unfold run_check, check_try_block, try_except, bind, log, tell, assign, modify,
    gets, call, read_local, when, ret, raise, stop, assign_self.
  rewrite Hraise.
  destruct (Check.stop_requested check); cbn; rewrite Hunbound; cbn;
    (eexists; split; [reflexivity|]); cbn; rewrite Hnone;
    (split; [|reflexivity]); by rewrite <- !app_assoc.
Qed.

(** The source [bad] raises before the source [good] in the first cycle
    of [c0]. *)
Lemma first_raising_source_aborts_cycle_witness :
  ∃ st',
    run plain_world (Some ([bad; good], [])) true (enter c0)
    = (Raised (UnboundLocalError "current_check_metadata"), st')
    ∧ trace st'
      = trace (before_loops plain_world (Some ([bad; good], [])) (enter c0)).2
        ++ [ Log INFO ("Running check " +:+ Check.name bad);
             SourceRun (Check.name bad);
             Log EXCEPTION ("Error running check " +:+ Check.name bad) ]
    ∧ check_statuses (locals st') = [].
Proof.
  apply (first_raising_source_aborts_cycle plain_world (Some ([bad; good], [])) true
           (enter c0)
           (before_loops plain_world (Some ([bad; good], [])) (enter c0)).2
           bad [good] (Exception "boom")).
  - vm_compute. reflexivity.
  - vm_compute. reflexivity.
  - vm_compute. reflexivity.
  - reflexivity.
Defined.

(** ** The inventory command *)

Lemma keeps_host_refl st : keeps_host st st. Proof. by intros H. Qed.

Lemma keeps_host_trans s1 s2 s3 : keeps_host s1 s2 → keeps_host s2 s3 → keeps_host s1 s3.
Proof. unfold keeps_host. auto. Qed.

Lemma setitem_keeps_data key v p k :
  is_Some (AgentPayload.data_payload p !! k) →
  is_Some (AgentPayload.data_payload (AgentPayload.__setitem__ key v p) !! k).
Proof.
  intros H. unfold AgentPayload.__setitem__.
  destruct (decide (key ∈ AgentPayload.DUPLICATE_KEYS));
    [|destruct (decide (key ∈ AgentPayload.METADATA_KEYS))]; cbn; try done;
    rewrite lookup_insert_is_Some; destruct (decide (key = k)); auto.
Qed.

Lemma update_keeps_data items p k :
  is_Some (AgentPayload.data_payload p !! k) →
  is_Some (AgentPayload.data_payload (AgentPayload.update items p) !! k).
Proof.
  unfold AgentPayload.update. revert p.
  induction items as [|kv items IH]; intros p H; [done|].
  cbn. apply IH. by apply setitem_keeps_data.
Qed.

Lemma setitem_data_other key v p k :
  k ≠ key →
  AgentPayload.data_payload (AgentPayload.__setitem__ key v p) !! k
  = AgentPayload.data_payload p !! k.
Proof.
  intros H. unfold AgentPayload.__setitem__.
  destruct (decide (key ∈ AgentPayload.DUPLICATE_KEYS));
    [|destruct (decide (key ∈ AgentPayload.METADATA_KEYS))]; cbn; try done;
    by rewrite lookup_insert_ne.
Qed.

Lemma setitem_data_same key v p :
  key ∉ AgentPayload.METADATA_KEYS →
  AgentPayload.data_payload (AgentPayload.__setitem__ key v p) !! key = Some v.
Proof.
  intros H. unfold AgentPayload.__setitem__.
  destruct (decide (key ∈ AgentPayload.DUPLICATE_KEYS));
    [|destruct (decide (key ∈ AgentPayload.METADATA_KEYS))]; cbn; try done;
    by rewrite lookup_insert_eq.
Qed.

Lemma keeps_host_payload_setitem key v : steps keeps_host (payload_setitem key v).
Proof. intros st H. by apply setitem_keeps_data. Qed.

Lemma keeps_host_payload_update items : steps keeps_host (payload_update items).
Proof. intros st H. by apply update_keeps_data. Qed.

Lemma keeps_host_store_back key v : steps keeps_host (store_back key v).
Proof.
  intros st [x Hx]. unfold names_host, store_back, assign, modify. cbn.
  destruct (decide (key ∈ AgentPayload.METADATA_KEYS)); cbn; [by eexists|].
  rewrite lookup_insert_is_Some. destruct (decide (key = "internalHostname")); eauto.
Qed.

Ltac host_known :=
  lazymatch goal with
  | |- steps _ (payload_setitem _ _) => apply keeps_host_payload_setitem
  | |- steps _ (payload_update _) => apply keeps_host_payload_update
  | |- steps _ (store_back _ _) => apply keeps_host_store_back
  end.

Ltac host_loop IH :=
  idtac;
  lazymatch goal with
  | |- steps _ (resources_loop _ _) => apply IH
  | |- steps _ (metrics_checks_loop _) => exact IH
  | |- steps _ (checks_d_loop _) => exact IH
  | |- steps _ (init_failed_loop _) => exact IH
  end.

Ltac host_walk known :=
  walk keeps_host_refl keeps_host_trans
    ltac:(first [ host_known | known ])
    ltac:(intros H; exact H).

Lemma keeps_host_resources_loop checks has : steps keeps_host (resources_loop checks has).
Proof.
  revert has. induction checks as [|check rest IH]; intros has; cbn [resources_loop];
    host_walk ltac:(host_loop IH).
Qed.

Lemma keeps_host_metrics_checks_loop checks :
  steps keeps_host (metrics_checks_loop checks).
Proof.
  induction checks as [|check rest IH]; cbn [metrics_checks_loop];
    host_walk ltac:(host_loop IH).
Qed.

Lemma keeps_host_checks_d_loop checks : steps keeps_host (checks_d_loop checks).
Proof.
  induction checks as [|check rest IH]; cbn [checks_d_loop];
    host_walk ltac:(host_loop IH).
Qed.

Lemma keeps_host_init_failed_loop items : steps keeps_host (init_failed_loop items).
Proof.
  induction items as [|[check_name info] rest IH]; cbn [init_failed_loop];
    host_walk ltac:(host_loop IH).
Qed.

(** The payload names the host from [_build_payload] on. *)
Lemma _build_payload_names_host w :
  returns_in (fun _ => True) (_build_payload w) names_host.
Proof.
  unfold _build_payload. cbv zeta.
  do 13 (apply returns_in_last; intros ?).
  apply (returns_in_bind _ names_host).
  - intros s x s' _ [= _ <-]. unfold names_host. cbn.
    rewrite setitem_data_same; [by eexists|].
    apply (bool_decide_unpack _). vm_compute. exact I.
  - intros _. apply (returns_in_steps keeps_host).
    + host_walk fail.
    + auto.
Qed.

Lemma collect_names_host w checksd :
  returns_in (fun _ => True) (collect w checksd) names_host.
Proof.
  unfold collect.
  apply (returns_in_bind _ names_host).
  - unfold before_loops.
    do 7 (apply returns_in_last; intros ?).
    apply (returns_in_bind _ names_host); [apply _build_payload_names_host|].
    intros _. apply (returns_in_steps keeps_host).
    + host_walk ltac:(idtac; lazymatch goal with
                      | |- steps _ (resources_loop _ _) => apply keeps_host_resources_loop
                      | |- steps _ (metrics_checks_loop _) =>
                          apply keeps_host_metrics_checks_loop
                      end).
    + auto.
  - intros _. apply (returns_in_steps keeps_host).
    + host_walk ltac:(idtac; lazymatch goal with
                      | |- steps _ (checks_d_loop _) => apply keeps_host_checks_d_loop
                      | |- steps _ (init_failed_loop _) => apply keeps_host_init_failed_loop
                      end).
    + auto.
Qed.

Lemma systemStats_in_metadata :
  "systemStats" ∈ AgentPayload.METADATA_KEYS ∧ "systemStats" ∉ AgentPayload.DUPLICATE_KEYS.
Proof. split; apply (bool_decide_unpack _); vm_compute; exact I. Qed.

Lemma setitem_systemStats_data v p :
  AgentPayload.data_payload (AgentPayload.__setitem__ "systemStats" v p)
  = AgentPayload.data_payload p.
Proof.
  destruct systemStats_in_metadata as [Hm Hd]. unfold AgentPayload.__setitem__.
  destruct (decide _); [done|]. by destruct (decide _).
Qed.

Lemma gather_gohai_reraises w errno st :
  (∀ command, popen_communicate w command = Raised (OSError errno)) →
  errno ≠ 2%Z →
  gather_gohai w st = (Raised (OSError errno), st).
Proof.
  intros Hfail Hne. unfold gather_gohai, try_except, bind, call. rewrite Hfail.
  apply Z.eqb_neq in Hne. by rewrite Hne.
Qed.

Lemma gate_fires_when_due w st :
  host_metadata_due w st →
  ∃ st', _should_send_additional_data (now_host_metadata w) "host_metadata" st
         = (Done (VBool true), st').
Proof.
  intros Hdue. unfold _should_send_additional_data, _is_first_run, bind, gets.
  destruct (Nat.leb (run_count (self st)) 1) eqn:Hfirst; [by eexists|].
  destruct Hdue as [Hle | (g & Hg & Hpassed)].
  - apply Nat.leb_le in Hle. congruence.
  - rewrite Hg. apply Z.leb_le in Hpassed. rewrite Hpassed. by eexists.
Qed.

Lemma populate_reraises w errno cs se st :
  (∀ command, popen_communicate w command = Raised (OSError errno)) →
  errno ≠ 2%Z →
  names_host st →
  AgentPayload.data_payload (payload (locals st)) !! "events" = Some (VRef Events) →
  host_metadata_due w st →
  ∃ st', _populate_payload_metadata w cs se st = (Raised (OSError errno), st').
Proof.
  intros Hfail Hne [host Hhost] Hevents Hdue.
  unfold _populate_payload_metadata. cbv zeta.
  unfold bind at 1. unfold _is_first_run at 1, gets at 1. cbv beta iota.
  unfold bind at 1.
  match goal with
  | |- context [when ?b ?m st] =>
      assert (∃ s1, when b m st = (Done tt, s1) ∧ self s1 = self st)
        as (s1 & -> & Hself)
  end.
  { destruct (se && _); [|by eexists].
    unfold when, payload_item_setitem, payload_getitem, payload_setitem,
      bind, gets, assign, modify, call.
    cbn [locals payload with_locals set_payload fst snd].
    rewrite !getitem_data
      by first [ apply internalHostname_not_metadata | apply events_not_metadata ].
    unfold AgentPayload.dict_getitem. rewrite !setitem_systemStats_data.
    rewrite Hhost, Hevents. by eexists. }
  assert (host_metadata_due w s1) as Hdue1.
  { unfold host_metadata_due. by rewrite Hself. }
  destruct (gate_fires_when_due w s1 Hdue1) as (s2 & Hgate).
  unfold bind at 1. rewrite Hgate. cbn [truthy when].
  unfold bind at 1 2. rewrite (gather_gohai_reraises w errno s2 Hfail Hne).
  by eexists.
Qed.

Lemma complete_payload_reraises w errno se st :
  (∀ command, popen_communicate w command = Raised (OSError errno)) →
  errno ≠ 2%Z →
  names_host st →
  host_metadata_due w st →
  ∃ st', complete_payload w se st = (Raised (OSError errno), st').
Proof.
  intros Hfail Hne Hhost Hdue.
  unfold complete_payload.
  unfold bind at 1, gets at 1. cbv beta iota.
  unfold bind at 1, service_checks_append at 1, assign at 1, modify at 1. cbv beta iota.
  unfold bind at 1, payload_setitem at 1, assign at 1, modify at 1. cbv beta iota.
  unfold bind at 1, payload_setitem at 1, assign at 1, modify at 1. cbv beta iota.
  unfold bind at 1, payload_setitem at 1, assign at 1, modify at 1. cbv beta iota.
  unfold bind at 1, gets at 1. cbv beta iota.
  unfold bind at 1.
  match goal with
  | |- context [_populate_payload_metadata w ?cs se ?s] =>
      destruct (populate_reraises w errno cs se s Hfail Hne) as (s' & ->)
  end.
  - unfold names_host. cbn [locals payload with_locals set_payload].
    by do 3 apply setitem_keeps_data.
  - cbn [locals payload with_locals set_payload].
    rewrite setitem_data_other by done.
    apply setitem_data_same, events_not_metadata.
  - exact Hdue.
  - by eexists.
Qed.

(** C5, as the code has it. When the inventory command fails with
    [OSError] of errno 2, the failure is logged at info level and the
    step ends normally; any exception other than [OSError] is logged as a
    warning and the step ends normally. An [OSError] with another errno
    is raised again: it leaves the step, and in every cycle that gets past
    its loops with the host metadata due (the first cycle, or the
    interval has passed) it leaves [run], which returns no payload. *)
Theorem gohai_failure_handling (w : World) (e : exn) (st : State) :
  (∀ command, popen_communicate w command = Raised e) →
  match e with
  | OSError errno =>
      if (errno =? 2)%Z
      then gather_gohai w st = (Done tt, logged INFO "gohai file not found" st)
      else gather_gohai w st = (Raised (OSError errno), st)
           ∧ ∀ checksd start_event s0 s1,
               collect w checksd s0 = (Done Next, s1) →
               host_metadata_due w s1 →
               ∃ st', run w checksd start_event s0 = (Raised (OSError errno), st')
  | _ =>
      gather_gohai w st
      = (Done tt, logged WARNING ("gohai command failed with error " +:+ str_exn w e) st)
  end.
Proof.
  intros Hfail.
  destruct e; try (unfold gather_gohai, try_except, bind, call; by rewrite Hfail).
  destruct (errno =? 2)%Z eqn:Herrno.
  - unfold gather_gohai, try_except, bind, call. by rewrite Hfail, Herrno.
  - apply Z.eqb_neq in Herrno. split; [by apply gather_gohai_reraises|].
    intros checksd start_event s0 s1 Hcollect Hdue.
    pose proof (collect_names_host w checksd s0 Next s1 I Hcollect) as Hhost.
    unfold run, finish_run. unfold bind at 1. rewrite Hcollect.
    unfold bind at 1.
    destruct (complete_payload_reraises w errno start_event s1 Hfail Herrno Hhost Hdue)
      as (st' & ->).
    by eexists.
Qed.

(** The command is not found (errno 2); and the permission is denied
    (errno 13) in the first cycle of [c0], with one source. *)
Lemma gohai_failure_handling_witness :
  gather_gohai (world_with (Raised (OSError 2)) 3) first_cycle
  = (Done tt, logged INFO "gohai file not found" first_cycle)
  ∧ gather_gohai denied first_cycle = (Raised (OSError 13), first_cycle)
  ∧ ∃ st', run denied (Some ([good], [])) true (enter c0) = (Raised (OSError 13), st').
Proof.
  split; [|split].
  - apply (gohai_failure_handling (world_with (Raised (OSError 2)) 3)
             (OSError 2) first_cycle).
    intros command. reflexivity.
  - destruct (gohai_failure_handling denied (OSError 13) first_cycle) as [H _].
    + intros command. reflexivity.
    + exact H.
  - destruct (gohai_failure_handling denied (OSError 13) first_cycle) as [_ H].
    + intros command. reflexivity.
    + apply (H (Some ([good], [])) true (enter c0)
               (collect denied (Some ([good], [])) (enter c0)).2).
      * vm_compute. reflexivity.
      * left. vm_compute. lia.
Defined.

(** When the inventory command fails with EACCES, the exception leaves
    the inventory step and the whole cycle. *)
Lemma gohai_permission_denied_aborts :
  (gather_gohai denied first_cycle).1 = Raised (OSError 13)
  ∧ (run denied None true (enter c0)).1 = Raised (OSError 13).
Proof. split; vm_compute; reflexivity. Qed.

(** ** The events of a cycle *)

Lemma bind_assoc_ext {A B C} (m : M A) (k : A → M B) (k' : B → M C)
    (k1 : A → M C) st :
  (∀ a s, k1 a s = bind (k a) k' s) → bind m k1 st = bind (bind m k) k' st.
Proof. intros H. unfold bind. destruct (m st) as [[a|e] s]; [apply H|done]. Qed.

(** [before_loops] is [cycle_start], then the old-style checks and the
    steps after them. *)
Lemma before_loops_from_start w checksd st :
  before_loops w checksd st
  = (cycle_start w checksd ;;
     run_old_style_checks ;;
     run_resources_checks ;;
     c <- gets self ;;
     metrics_checks_loop (_metrics_checks c) ;;
     assign (fun f => set_check_statuses f [])) st.
Proof.
  unfold before_loops, cycle_start.
  do 8 (apply bind_assoc_ext; intros ? ?). reflexivity.
Qed.











(** ** The cycle counter *)

Lemma counted_refl st : counted st st. Proof. done. Qed.

Lemma counted_trans s1 s2 s3 : counted s1 s2 → counted s2 s3 → counted s1 s3.
Proof. unfold counted. congruence. Qed.

Ltac counted_walk known := walk counted_refl counted_trans known ltac:(reflexivity).

Lemma counted_checks_d_loop checks : steps counted (checks_d_loop checks).
Proof.
  induction checks as [|check rest IH]; cbn [checks_d_loop];
    counted_walk ltac:(exact IH).
Qed.

Lemma counted_init_failed_loop items : steps counted (init_failed_loop items).
Proof.
  induction items as [|[check_name info] rest IH]; cbn [init_failed_loop];
    counted_walk ltac:(exact IH).
Qed.

Lemma counted_resources_loop checks has : steps counted (resources_loop checks has).
Proof.
  revert has. induction checks as [|check rest IH]; intros has; cbn [resources_loop];
    counted_walk ltac:(apply IH).
Qed.

Lemma counted_metrics_checks_loop checks : steps counted (metrics_checks_loop checks).
Proof.
  induction checks as [|check rest IH]; cbn [metrics_checks_loop];
    counted_walk ltac:(exact IH).
Qed.

Lemma counted_external_host_tags_loop checks tags :
  steps counted (external_host_tags_loop checks tags).
Proof.
  revert tags. induction checks as [|check rest IH]; intros tags;
    cbn [external_host_tags_loop]; counted_walk ltac:(apply IH).
Qed.

Lemma counted_agent_checks_loop w statuses acc :
  steps counted (agent_checks_loop w statuses acc).
Proof.
  revert acc. induction statuses as [|check rest IH]; intros acc;
    cbn [agent_checks_loop]; counted_walk ltac:(apply IH).
Qed.

Create HintDb counted.
Hint Resolve counted_checks_d_loop counted_init_failed_loop
  counted_resources_loop counted_metrics_checks_loop
  counted_external_host_tags_loop counted_agent_checks_loop : counted.

Lemma counted_finish_run w se : steps counted (finish_run w se).
Proof. unfold finish_run. counted_walk ltac:(auto with counted nocore). Qed.

Lemma counted_loops : steps counted loops.
Proof. unfold loops. counted_walk ltac:(auto with counted nocore). Qed.

(** X13. A call of [run] adds exactly one to [run_count], however the
    cycle ends: with a payload, with the bare return of a stop, or with an
    exception that leaves the call. Nothing in the cycle resets or skips
    the counter. *)
Theorem every_cycle_counts_once (w : World)
    (checksd : option (list Check.t * list (string * InitFailure.t)))
    (start_event : bool) (st : State) :
  run_count (self (run w checksd start_event st).2) = S (run_count (self st)).
Proof.
  assert (run_count (self (before_loops w checksd st).2) = S (run_count (self st)))
    as Hbefore.
  { unfold before_loops. unfold bind at 1, assign at 1, modify at 1.
    unfold bind at 1, assign_self at 1, modify at 1. cbv beta iota.
    match goal with
    | |- run_count (self (?m ?s).2) = _ =>
        assert (steps counted m) as Hsteps
          by (counted_walk ltac:(auto with counted nocore));
        exact (Hsteps s)
    end. }
  unfold run, collect, bind.
  destruct (before_loops w checksd st) as [[[]|e] s0]; cbn [snd] in Hbefore;
    [|exact Hbefore].
  pose proof (counted_loops s0) as H1. unfold counted in H1.
  destruct (loops s0) as [[[]|e] s1]; cbn [snd] in H1.
  - pose proof (counted_finish_run w start_event s1) as H2.
    unfold counted in H2. rewrite H2, H1. exact Hbefore.
  - unfold ret. cbn [snd]. by rewrite H1.
  - cbn [snd]. by rewrite H1.
Qed.


End Cycle.

(** ** The payload: the rest of the mapping interface *)

Section PayloadInterface.
Import AgentPayload.

(** X1. Reading a key right after it was set gives the value that was
    set, whichever map the key is routed to, and setting a key leaves
    what is read under every other key as it was. *)
Theorem getitem_after_setitem (key key' : string) (v : value) (p : t) :
  __getitem__ key (__setitem__ key v p) = Done v
  ∧ (key' ≠ key → __getitem__ key' (__setitem__ key v p) = __getitem__ key' p).
Proof.
  unfold __getitem__, __setitem__, dict_getitem. split.
  - destruct (decide (key ∈ DUPLICATE_KEYS)) as [Hd|Hd]; cbn.
    + destruct (decide (key ∈ METADATA_KEYS)); by rewrite lookup_insert_eq.
    + destruct (decide (key ∈ METADATA_KEYS)); cbn; by rewrite lookup_insert_eq.
  - intros Hne.
    destruct (decide (key ∈ DUPLICATE_KEYS)), (decide (key ∈ METADATA_KEYS)),
      (decide (key' ∈ METADATA_KEYS)); cbn; by rewrite ?lookup_insert_ne.
Qed.


(** On a new payload, "gohai" reads back once set, and setting it leaves
    what "os" reads alone. *)
Lemma getitem_after_setitem_witness :
  __getitem__ "gohai" (__setitem__ "gohai" (VStr "x") __init__) = Done (VStr "x")
  ∧ __getitem__ "os" (__setitem__ "gohai" (VStr "x")
                        (__setitem__ "os" (VStr "linux") __init__))
    = __getitem__ "os" (__setitem__ "os" (VStr "linux") __init__).
Proof.
  split.
  - destruct (getitem_after_setitem "gohai" "os" (VStr "x") __init__) as [H _].
    exact H.
  - destruct (getitem_after_setitem "gohai" "os" (VStr "x")
                (__setitem__ "os" (VStr "linux") __init__)) as [_ H].
    apply H. discriminate.
Defined.

Lemma routed_init : routed __init__.
Proof. split; intros key [x Hx]; cbn in Hx; by rewrite lookup_empty in Hx. Qed.

Lemma routed_setitem key v p : routed p → routed (__setitem__ key v p).
Proof.
  intros [Hdata Hmeta]. unfold __setitem__.
  destruct (decide (key ∈ DUPLICATE_KEYS)) as [Hd|Hd]; cbn.
  - split; intros k; cbn; rewrite lookup_insert;
      destruct (decide (key = k)) as [<-|]; auto.
    intros _ Hm. by apply (metadata_not_duplicate key).
  - destruct (decide (key ∈ METADATA_KEYS)) as [Hm|Hm]; split; intros k; cbn;
      rewrite ?lookup_insert; try destruct (decide (key = k)) as [<-|]; auto.
Qed.

Lemma routed_delitem key p : routed p → routed (__delitem__ key p).2.
Proof.
  intros [Hdata Hmeta]. unfold __delitem__, dict_delitem.
  assert (∀ (m : gmap string value) k, is_Some (delete key m !! k) → is_Some (m !! k))
    as Hdel.
  { intros m k. rewrite lookup_delete. destruct (decide (key = k)); [|done].
    by intros [? ?]. }
  destruct (decide (key ∈ DUPLICATE_KEYS)).
  - destruct (data_payload p !! key); [|done].
    destruct (meta_payload p !! key); split; intros k; cbn; auto.
  - destruct (decide (key ∈ METADATA_KEYS)).
    + destruct (meta_payload p !! key); [|done]. split; intros k; cbn; auto.
    + destruct (data_payload p !! key); [|done]. split; intros k; cbn; auto.
Qed.

Lemma routed_foldl ops p : routed p → routed (foldl apply_op p ops).
Proof.
  revert p. induction ops as [|o ops IH]; intros p Hp; [done|].
  cbn. apply IH. destruct o; [by apply routed_setitem | by apply routed_delitem].
Qed.

Lemma routed_apply_ops ops : routed (apply_ops ops) ∧ agree (apply_ops ops).
Proof.
  split; [apply routed_foldl, routed_init | apply agree_foldl, agree_init].
Qed.

(** X2. On a payload that was built through the mapping interface,
    deleting a key either succeeds, and then the key was readable before,
    is in neither map afterwards, reading it raises KeyError and every
    other key reads as before; or it raises KeyError for that key, and
    then the payload is unchanged (a duplicate key is never deleted from
    one map only) and reading the key raises KeyError as well. *)
Theorem delitem_on_used_payload (ops : list op) (key key' : string) :
  let p := apply_ops ops in
  match __delitem__ key p with
  | (Done _, p') =>
      (∃ v, __getitem__ key p = Done v)
      ∧ __getitem__ key p' = Raised (KeyError key)
      ∧ data_payload p' !! key = None
      ∧ meta_payload p' !! key = None
      ∧ (key' ≠ key → __getitem__ key' p' = __getitem__ key' p)
  | (Raised e, p') =>
      e = KeyError key ∧ p' = p ∧ __getitem__ key p = Raised (KeyError key)
  end.
Proof.
  intros p. destruct (routed_apply_ops ops) as [[Hdata Hmeta] Hagree].
  fold p in Hdata, Hmeta, Hagree.
  unfold __delitem__, __getitem__, dict_delitem, dict_getitem.
  destruct (decide (key ∈ DUPLICATE_KEYS)) as [Hd|Hd].
  - assert (key ∉ METADATA_KEYS) as Hm
      by (intros Hm; by apply (metadata_not_duplicate key)).
    pose proof (Hagree key Hd) as Hboth.
    destruct (decide (key ∈ METADATA_KEYS)); [done|].
    destruct (data_payload p !! key) as [x|] eqn:Hx; [|done].
    rewrite <- Hboth. cbn. rewrite !lookup_delete_eq.
    repeat split; eauto.
    intros Hne. destruct (decide (key' ∈ METADATA_KEYS));
      by rewrite lookup_delete_ne.
  - destruct (decide (key ∈ METADATA_KEYS)) as [Hm|Hm].
    + destruct (meta_payload p !! key) as [x|] eqn:Hx; [|done].
      cbn. rewrite lookup_delete_eq. repeat split; eauto.
      * destruct (data_payload p !! key) eqn:Hdk; [|done].
        destruct (Hdata key); eauto.
      * intros Hne. destruct (decide (key' ∈ METADATA_KEYS)); [|done].
        by rewrite lookup_delete_ne.
    + destruct (data_payload p !! key) as [x|] eqn:Hx; [|done].
      cbn. rewrite lookup_delete_eq. repeat split; eauto.
      * destruct (meta_payload p !! key) eqn:Hmk; [|done].
        destruct (Hmeta key) as [?|?]; eauto; done.
      * intros Hne. destruct (decide (key' ∈ METADATA_KEYS)); [done|].
        by rewrite lookup_delete_ne.
Qed.


(** Deleting "agentKey" from a payload that holds it and "os" leaves what
    "os" reads alone. *)
Lemma delitem_on_used_payload_witness :
  __getitem__ "os"
    (__delitem__ "agentKey"
       (apply_ops [SetItem "agentKey" (VStr "k"); SetItem "os" (VStr "linux")])).2
  = __getitem__ "os"
      (apply_ops [SetItem "agentKey" (VStr "k"); SetItem "os" (VStr "linux")]).
Proof.
  pose proof (delitem_on_used_payload
                [SetItem "agentKey" (VStr "k"); SetItem "os" (VStr "linux")]
                "agentKey" "os") as H.
  cbv zeta in H.
  destruct (__delitem__ "agentKey" _) as [[u|e] p'] eqn:E.
  - destruct H as (_ & _ & _ & _ & H). apply H. discriminate.
  - exfalso. destruct H as (_ & _ & H). vm_compute in H. discriminate.
Defined.

Lemma size_two_maps (m1 m2 : gmap string value) :
  size m1 + size m2 = size (m1 ∪ m2) + size (dom m2 ∩ dom m1).
Proof.
  rewrite <- !(size_dom (D := gset string)), dom_union_L, size_union_alt.
  pose proof (size_difference_alt (dom m2) (dom m1)) as Hdiff.
  pose proof (subseteq_size (dom m2 ∩ dom m1) (dom m2)) as Hle.
  assert (dom m2 ∩ dom m1 ⊆ dom m2) as Hsub by apply intersection_subseteq_l.
  specialize (Hle Hsub). lia.
Qed.

(** X3. On a payload that was built through the mapping interface,
    iterating yields as many keys as [__len__] counts; that number is the
    size of the merged view plus the number of keys held in both maps, and
    only duplicate keys are held in both; a key is yielded by the
    iteration exactly when the merged view has it. *)
Theorem len_counts_duplicates_twice (ops : list op) :
  let p := apply_ops ops in
  length (__iter__ p) = __len__ p
  ∧ __len__ p
    = size (payload p) + size (dom (data_payload p) ∩ dom (meta_payload p))
  ∧ dom (data_payload p) ∩ dom (meta_payload p) ⊆ DUPLICATE_KEYS
  ∧ ∀ key, key ∈ __iter__ p ↔ is_Some (payload p !! key).
Proof.
  intros p. destruct (routed_apply_ops ops) as [[Hdata Hmeta] _].
  fold p in Hdata, Hmeta. repeat split.
  - unfold __iter__, __len__.
    by rewrite length_app, !length_fmap, !length_map_to_list.
  - unfold __len__, payload. rewrite (Nat.add_comm (size (data_payload p))).
    apply size_two_maps.
  - intros key [Hd Hm]%elem_of_intersection.
    apply elem_of_dom in Hd, Hm.
    destruct (Hmeta key Hm) as [H|H]; [|done]. by destruct (Hdata key Hd).
  - unfold __iter__. rewrite elem_of_app, !list_elem_of_fmap.
    intros [([k v] & -> & Hin)|([k v] & -> & Hin)];
      apply elem_of_map_to_list in Hin; unfold payload; cbn;
      rewrite lookup_union; destruct (meta_payload p !! k), (data_payload p !! k);
      by try done; eauto.
  - unfold __iter__, payload. rewrite lookup_union, elem_of_app, !list_elem_of_fmap.
    intros [v Hv].
    destruct (meta_payload p !! key) as [x|] eqn:Hx.
    + right. exists (key, x). split; [done|]. by apply elem_of_map_to_list.
    + destruct (data_payload p !! key) as [y|] eqn:Hy; [|done].
      left. exists (key, y). split; [done|]. by apply elem_of_map_to_list.
Qed.

End PayloadInterface.

(** ** The periodic gate: between two firings *)

Section GateIntervals.
Import Collector Scenario.
Local Open Scope py_scope.

(** X4. After the gate of a task has fired at [now] on a later cycle, it
    answers False and leaves the state alone as long as less than the
    interval has passed since [now], and it fires and rearms again once
    the interval has passed: the interval is counted from the last
    firing. *)
Theorem gate_is_quiet_until_next_interval (now now' : Z) (data_name : string)
    (g : Gate) (st : State) :
  push_times (self st) !! data_name = Some g →
  1 < run_count (self st) →
  (interval g ≤ now - start g)%Z →
  let st1 := rearmed now data_name g st in
  _should_send_additional_data now data_name st = (Done (VBool true), st1)
  ∧ ((now' - now < interval g)%Z →
       _should_send_additional_data now' data_name st1 = (Done (VBool false), st1))
  ∧ ((interval g ≤ now' - now)%Z →
       _should_send_additional_data now' data_name st1
       = (Done (VBool true),
          rearmed now' data_name {| start := now; interval := interval g |} st1)).
Proof.
  intros Hg Hlater Hdue st1.
  apply Nat.leb_gt in Hlater. apply Z.leb_le in Hdue.
  unfold _should_send_additional_data, _is_first_run, bind, gets, log, tell,
    assign_self, modify, ret.
  rewrite Hlater, Hg, Hdue. split; [done|].
  assert (Nat.leb (run_count (self st1)) 1 = false) as Hlater1 by exact Hlater.
  assert (push_times (self st1) !! data_name
          = Some {| start := now; interval := interval g |}) as Hg1
    by apply lookup_insert_eq.
  rewrite Hlater1, Hg1. cbn [start interval].
  split; intros Hcmp.
  - apply Z.leb_gt in Hcmp. by rewrite Hcmp.
  - apply Z.leb_le in Hcmp. by rewrite Hcmp.
Qed.


(** The agent_checks gate, fired at 600 with an interval of 600: quiet at
    700, firing again at 1200. *)
Lemma gate_is_quiet_until_next_interval_witness :
  _should_send_additional_data 700 "agent_checks"
    (rearmed 600 "agent_checks" {| start := 0; interval := 600 |} second_cycle)
  = (Done (VBool false),
     rearmed 600 "agent_checks" {| start := 0; interval := 600 |} second_cycle)
  ∧ _should_send_additional_data 1200 "agent_checks"
      (rearmed 600 "agent_checks" {| start := 0; interval := 600 |} second_cycle)
    = (Done (VBool true),
       rearmed 1200 "agent_checks" {| start := 600; interval := 600 |}
         (rearmed 600 "agent_checks" {| start := 0; interval := 600 |} second_cycle)).
Proof.
  split.
  - destruct (gate_is_quiet_until_next_interval 600 700 "agent_checks"
                {| start := 0; interval := 600 |} second_cycle) as (_ & H & _).
    + vm_compute. reflexivity.
    + vm_compute. lia.
    + vm_compute. discriminate.
    + apply H. vm_compute. reflexivity.
  - destruct (gate_is_quiet_until_next_interval 600 1200 "agent_checks"
                {| start := 0; interval := 600 |} second_cycle) as (_ & _ & H).
    + vm_compute. reflexivity.
    + vm_compute. lia.
    + vm_compute. discriminate.
    + apply H. vm_compute. discriminate.
Defined.




End GateIntervals.

(** ** The sources of a cycle *)

Section Sources.
Import Collector Scenario.
Local Open Scope py_scope.

Lemma with_statuses_nil st : with_statuses [] st = st.
Proof.
  destruct st as [c f tr]. destruct f. unfold with_statuses, with_locals, set_check_statuses.
  cbn. by rewrite app_nil_r.
Qed.

Lemma with_statuses_app l1 l2 st :
  with_statuses l2 (with_statuses l1 st) = with_statuses (l1 ++ l2) st.
Proof.
  unfold with_statuses, with_locals, set_check_statuses. cbn. by rewrite app_assoc.
Qed.

(** X6. The loop over the sources that failed to initialise: with nothing
    to report it goes on whether or not a stop was requested; while the
    collector runs it appends one status record per entry, in order,
    carrying the error and the traceback, and nothing else changes; once
    a stop was requested and there is an entry, it returns from [run] with
    the state as it was. *)
Theorem init_failures_are_recorded (items : list (string * InitFailure.t)) (st : State) :
  init_failed_loop [] st = (Done Next, st)
  ∧ (continue_running (self st) = true →
     init_failed_loop items st
     = (Done Next, with_statuses (init_failed_status <$> items) st))
  ∧ (continue_running (self st) = false → items ≠ [] →
     init_failed_loop items st = (Done Return_, st)).
Proof.
  split; [done|]. split.
  - revert st. induction items as [|[check_name info] items IH]; intros st Hrun.
    + cbn. by rewrite with_statuses_nil.
    + cbn [init_failed_loop]. unfold bind, gets, assign, modify. rewrite Hrun.
      cbn [negb].
      change (with_locals _ st)
        with (with_statuses [init_failed_status (check_name, info)] st).
      rewrite IH by exact Hrun. by rewrite with_statuses_app.
  - intros Hstop Hne. destruct items as [|[check_name info] items]; [done|].
    cbn [init_failed_loop]. unfold bind, gets, ret. by rewrite Hstop.
Qed.


(** One source that failed to import, on a running and on a stopped
    collector. *)
Lemma init_failures_are_recorded_witness :
  init_failed_loop [failed_import] first_cycle
  = (Done Next, with_statuses [init_failed_status failed_import] first_cycle)
  ∧ init_failed_loop [failed_import]
      (with_self (fun c => set_continue_running c false) first_cycle)
    = (Done Return_, with_self (fun c => set_continue_running c false) first_cycle).
Proof.
  split.
  - destruct (init_failures_are_recorded [failed_import] first_cycle) as (_ & H & _).
    apply H. vm_compute. reflexivity.
  - destruct (init_failures_are_recorded [failed_import]
                (with_self (fun c => set_continue_running c false) first_cycle))
      as (_ & _ & H).
    apply H; [reflexivity | discriminate].
Defined.

Lemma pop_first_spec {A} (p : A → bool) (l : list A) :
  match pop_first p l with
  | Some (x, rest) =>
      ∃ before after, l = before ++ x :: after ∧ rest = before ++ after
        ∧ p x = true ∧ Forall (fun y => p y = false) before
  | None => Forall (fun y => p y = false) l
  end.
Proof.
  induction l as [|y l IH]; cbn; [done|].
  destruct (p y) eqn:Hy.
  - exists [], l. by repeat split.
  - destruct (pop_first p l) as [[x rest]|].
    + destruct IH as (before & after & -> & -> & Hx & Hbefore).
      exists (y :: before), after. repeat split; try done. by constructor.
    + by constructor.
Qed.

(** X7. Finding the agent metrics check: once one is kept, the list of
    sources is left alone; otherwise, when no source has that name,
    nothing changes, and when one has, the first such source is kept as
    [_agent_metrics] and removed from the list, the others staying in
    order. *)
Theorem agent_metrics_check_is_popped (w : World) (st : State) :
  match _agent_metrics (self st) with
  | Some _ => find_agent_metrics w st = (Done tt, st)
  | None =>
      let is_agent := fun check : Check.t =>
        String.eqb (Check.name check) (AGENT_METRICS_CHECK_NAME w) in
      (Forall (fun check => is_agent check = false) (initialized_checks_d (self st)) →
       find_agent_metrics w st = (Done tt, st))
      ∧ (∀ before check after,
           initialized_checks_d (self st) = before ++ check :: after →
           Forall (fun check => is_agent check = false) before →
           is_agent check = true →
           find_agent_metrics w st
           = (Done tt,
              with_self (fun c => set_initialized_checks_d c (before ++ after))
                (with_self (fun c => set__agent_metrics c (Some check)) st)))
  end.
Proof.
  unfold find_agent_metrics, bind, gets, ret, assign_self, modify.
  destruct (_agent_metrics (self st)) as [agent|]; [done|].
  cbv zeta. split.
  - intros Hnone.
    pose proof (pop_first_spec
      (fun check => String.eqb (Check.name check) (AGENT_METRICS_CHECK_NAME w))
      (initialized_checks_d (self st))) as Hpop.
    destruct (pop_first _ _) as [[x rest]|]; [|done].
    destruct Hpop as (before & after & Hl & _ & Hx & _).
    rewrite Hl in Hnone. apply Forall_app in Hnone as [_ Hnone].
    apply Forall_cons in Hnone as [Hnone _]. cbv beta in Hnone. congruence.
  - intros before check after Hl Hbefore Hcheck.
    pose proof (pop_first_spec
      (fun check => String.eqb (Check.name check) (AGENT_METRICS_CHECK_NAME w))
      (initialized_checks_d (self st))) as Hpop.
    destruct (pop_first _ _) as [[x rest]|].
    + destruct Hpop as (before' & after' & Hl' & -> & Hx & Hbefore').
      assert (before' = before ∧ x = check ∧ after' = after) as (-> & -> & ->).
      { rewrite Hl in Hl'. clear Hl. revert before' Hl' Hbefore'.
        induction before as [|b before IH]; intros [|b' before'] Heq Hb'; cbn in Heq.
        - by injection Heq as -> ->.
        - injection Heq as -> _. apply Forall_cons in Hb' as [Hb' _]. congruence.
        - injection Heq as <- _. apply Forall_cons in Hbefore as [Hb _].
          cbv beta in Hb. congruence.
        - injection Heq as -> Heq. apply Forall_cons in Hbefore as [_ Hbefore].
          apply Forall_cons in Hb' as [_ Hb'].
          destruct (IH Hbefore before' Heq Hb') as (-> & -> & ->). done. }
      done.
    + rewrite Hl in Hpop. apply Forall_app in Hpop as [_ Hpop].
      apply Forall_cons in Hpop as [Hpop _]. cbv beta in Hpop. congruence.
Qed.


(** The agent metrics check between two other sources. *)
Lemma agent_metrics_check_is_popped_witness :
  find_agent_metrics plain_world
    (with_self (fun c => set_initialized_checks_d c [good; agent_metrics; bad])
       (enter c0))
  = (Done tt,
     with_self (fun c => set_initialized_checks_d c ([good] ++ [bad]))
       (with_self (fun c => set__agent_metrics c (Some agent_metrics))
          (with_self (fun c => set_initialized_checks_d c [good; agent_metrics; bad])
             (enter c0)))).
Proof.
  pose proof (agent_metrics_check_is_popped plain_world
                (with_self (fun c => set_initialized_checks_d c [good; agent_metrics; bad])
                   (enter c0))) as H.
  change (_agent_metrics (self (with_self
            (fun c => set_initialized_checks_d c [good; agent_metrics; bad])
            (enter c0)))) with (@None Check.t) in H.
  cbv beta iota zeta in H. destruct H as [_ H].
  apply (H [good] agent_metrics [bad]).
  - reflexivity.
  - repeat constructor.
  - reflexivity.
Defined.




(** X14. [run_single_check] returns a status record whenever the library
    information of the source can be read, whatever the other calls on the
    source do. When every getter in its [try] answers, the record carries
    the instance statuses, the three counts and the profiling statistics
    of the source; as soon as one of them raises, the failure is logged
    and all three counts are zero and the statistics absent, even for the
    lists that had been fetched already. *)
Theorem single_check_counts_all_or_nothing (check : Check.t)
    (get_service_checks : outcome (list value)) (lib : value) (st : State) :
  Check.get_library_info check = Done lib →
  ∃ s st', run_single_check check get_service_checks st = (Done s, st')
    ∧ CheckStatus.name s = Check.name check
    ∧ CheckStatus.library_versions s = lib
    ∧ match answers_all check get_service_checks with
      | Some (r, ms, es, scs, stats) =>
          CheckStatus.instance_statuses s = Some r
          ∧ counts s = (Some (length ms), Some (length es), Some (length scs))
          ∧ CheckStatus.check_stats s = stats
      | None =>
          counts s = (Some 0, Some 0, Some 0)
          ∧ CheckStatus.check_stats s = VNone
          ∧ Log EXCEPTION ("Error running check " +:+ Check.name check) ∈ trace st'
      end.
Proof.
  intros Hlib.
  unfold run_single_check, single_check_try_block, answers_all, counts,
    try_except, bind, when, stop, gets, log, tell, assign, assign_self, modify, call, ret.
  rewrite Hlib.
  destruct (Check.stop_requested check);
  destruct (Check.run check) as [r|]; cbv beta iota;
    try destruct (Check.get_metrics check) as [ms|]; cbv beta iota;
    try destruct (Check.get_events check) as [es|]; cbv beta iota;
    try destruct get_service_checks as [scs|]; cbv beta iota;
    try destruct (Check.get_service_metadata check) as [md|]; cbv beta iota;
    try destruct (Check._get_internal_profiling_stats check) as [stats|]; cbv beta iota;
    (eexists _, _; split; [reflexivity|]); cbn;
    repeat split; try reflexivity;
    rewrite ?elem_of_app, ?list_elem_of_singleton; auto.
Qed.


(** The source [good], whose service checks are read or cannot be read. *)
Lemma single_check_counts_all_or_nothing_witness :
  (∃ s st', run_single_check good (Done []) (enter c0) = (Done s, st')
     ∧ counts s = (Some 3, Some 1, Some 0))
  ∧ (∃ s st', run_single_check good (Raised (Exception "boom")) (enter c0)
              = (Done s, st')
     ∧ counts s = (Some 0, Some 0, Some 0)).
Proof.
  split.
  - destruct (single_check_counts_all_or_nothing good (Done []) VNone (enter c0))
      as (s & st' & Hrun & _ & _ & H); [reflexivity|].
    exists s, st'. split; [exact Hrun|].
    change (answers_all good (Done []))
      with (Some ([ok_instance], [VNum 1; VNum 2; VNum 3], [VStr "ev"],
                  @nil value, VNone)) in H.
    cbv beta iota in H. destruct H as (_ & H & _). exact H.
  - destruct (single_check_counts_all_or_nothing good (Raised (Exception "boom"))
                VNone (enter c0))
      as (s & st' & Hrun & _ & _ & H); [reflexivity|].
    exists s, st'. split; [exact Hrun|].
    change (answers_all good (Raised (Exception "boom")))
      with (@None (list InstanceStatus.t * list value * list value * list value * value))
      in H.
    cbv beta iota in H. destruct H as (H & _). exact H.
Defined.

End Sources.

(** ** The periodic metadata *)

Section Metadata.
Import Collector Scenario.
Local Open Scope py_scope.

(** X8. Gathering the external host tags: a source without the getter
    (AttributeError) is skipped, and the tags of the others are
    concatenated in the order of the sources, the state being left alone;
    any other exception of a getter is not caught and leaves the loop. *)
Theorem sources_without_host_tags_are_skipped (checks rest : list Check.t)
    (check : Check.t) (e : exn) (acc : list value) (st : State) :
  Forall tags_or_no_getter checks →
  external_host_tags_loop checks acc st = (Done (acc ++ mjoin (tags_of <$> checks)), st)
  ∧ (Check.get_external_host_tags check = Raised e →
     (∀ attr, e ≠ AttributeError attr) →
     external_host_tags_loop (checks ++ check :: rest) acc st = (Raised e, st)).
Proof.
  intros Hall.
  assert (∀ acc, external_host_tags_loop checks acc st
                 = (Done (acc ++ mjoin (tags_of <$> checks)), st)) as Hloop.
  { clear acc. induction Hall as [|c checks Hc _ IH]; intros acc.
    - cbn. by rewrite app_nil_r.
    - cbn [external_host_tags_loop]. unfold bind, try_except, call, ret, raise.
      unfold tags_or_no_getter in Hc. rewrite fmap_cons. cbn [mjoin list_join].
      unfold tags_of at 1.
      destruct (Check.get_external_host_tags c) as [t|[]]; try done;
        rewrite IH; by rewrite ?app_assoc, ?app_nil_r. }
  split; [apply Hloop|].
  intros He Hne. clear Hloop. revert acc.
  induction Hall as [|c checks Hc _ IH]; intros acc.
  - cbn [app external_host_tags_loop]. unfold bind, try_except, call, ret, raise.
    rewrite He. destruct e; try done. by destruct (Hne attr).
  - cbn [app external_host_tags_loop]. unfold bind, try_except, call, ret, raise.
    unfold tags_or_no_getter in Hc.
    destruct (Check.get_external_host_tags c) as [t|[]]; try done; apply IH.
Qed.


(** A source without the getter and a source with tags, then one whose
    getter times out. *)
Lemma sources_without_host_tags_are_skipped_witness :
  external_host_tags_loop [good; tagged] [] (enter c0)
  = (Done ([] ++ mjoin (tags_of <$> [good; tagged])), enter c0)
  ∧ external_host_tags_loop ([good; tagged] ++ untaggable :: [tagged]) [] (enter c0)
    = (Raised (Exception "timeout"), enter c0).
Proof.
  assert (Forall tags_or_no_getter [good; tagged]) as Hall
    by (repeat constructor).
  split.
  - destruct (sources_without_host_tags_are_skipped [good; tagged] [] untaggable
                (Exception "timeout") [] (enter c0) Hall) as [H _].
    exact H.
  - destruct (sources_without_host_tags_are_skipped [good; tagged] [tagged] untaggable
                (Exception "timeout") [] (enter c0) Hall) as [_ H].
    apply H; [reflexivity | discriminate].
Defined.

(** X9. The agent_checks summary indexes the service metadata of a source
    by the position of the instance: with a metadata list at least as
    long as the instance statuses there is one entry per instance, and
    with a shorter one the summary raises IndexError. *)
Theorem agent_checks_need_metadata_per_instance (w : World) (check : CheckStatus.t)
    (metadata : list value) (l : list InstanceStatus.t) (i : nat) :
  CheckStatus.service_metadata check = VList metadata →
  (i + length l ≤ length metadata →
     ∃ entries, instance_entries w check l i = Done entries
                ∧ length entries = length l)
  ∧ (length metadata < i + length l → l ≠ [] →
     instance_entries w check l i = Raised IndexError).
Proof.
  intros Hmd. split.
  - revert i. induction l as [|s l IH]; intros i Hlen; cbn [instance_entries].
    + by exists [].
    + cbn [length] in Hlen. unfold index_value. rewrite Hmd.
      destruct (lookup_lt_is_Some_2 metadata i ltac:(lia)) as [md ->].
      destruct (IH (S i) ltac:(lia)) as (entries & -> & Hentries).
      eexists. split; [reflexivity|]. cbn. by rewrite Hentries.
  - revert i. induction l as [|s l IH]; intros i Hlen Hne; [done|].
    cbn [instance_entries]. cbn [length] in Hlen. unfold index_value. rewrite Hmd.
    destruct (metadata !! i) as [md|] eqn:Hi; [|done].
    apply lookup_lt_Some in Hi.
    destruct l as [|s' l]; [cbn in Hlen; lia|].
    by rewrite (IH (S i) ltac:(cbn [length] in *; lia) ltac:(done)).
Qed.


(** Service metadata for one instance, with one and with two instance
    statuses. *)
Lemma agent_checks_need_metadata_per_instance_witness :
  (∃ entries, instance_entries plain_world good_status [ok_instance] 0 = Done entries
              ∧ length entries = length [ok_instance])
  ∧ instance_entries plain_world good_status [ok_instance; ok_instance] 0
    = Raised IndexError.
Proof.
  split.
  - destruct (agent_checks_need_metadata_per_instance plain_world good_status
                [VDict ∅] [ok_instance] 0) as [H _]; [reflexivity|].
    apply H. cbn. lia.
  - destruct (agent_checks_need_metadata_per_instance plain_world good_status
                [VDict ∅] [ok_instance; ok_instance] 0) as [_ H]; [reflexivity|].
    apply H; [cbn; lia | discriminate].
Defined.

(** X11. The hostname metadata: when the cloud providers and
    [get_hostname] answer, the call returns whatever the two socket calls
    do, and leaves the state alone; the result holds the hostname of
    [get_hostname], the EC2 hostname under "ec2-hostname" when there is
    one, the fully qualified name when the socket gives it and the
    configured hostname when there is one. *)
Theorem hostname_metadata_tolerates_sockets (w : World) (st : State)
    (ec2 : gmap string value) (h aliases : value) :
  EC2_get_metadata w = Done ec2 →
  get_hostname w = Done h →
  GCE_get_host_aliases w = Done aliases →
  ∃ metadata,
    _get_hostname_metadata w st = (Done (VDict metadata), st)
    ∧ metadata !! "hostname" = Some h
    ∧ (truthy (default VNone (ec2 !! "hostname")) = true →
       metadata !! "ec2-hostname" = ec2 !! "hostname")
    ∧ (∀ fqdn, socket_getfqdn w = Done fqdn → metadata !! "socket-fqdn" = Some fqdn)
    ∧ (∀ name, config_hostname (agentConfig (self st)) = Some name → name ≠ "" →
       metadata !! "agent-hostname" = Some (VStr name)).
Proof.
  intros Hec2 Hh Ha.
  unfold _get_hostname_metadata, bind, gets, call, try_except, ret.
  destruct (EC2_get_metadata w) as [ec2'|]; [injection Hec2 as ->|done].
  destruct (get_hostname w) as [h'|]; [injection Hh as ->|done].
  destruct (GCE_get_host_aliases w) as [aliases'|]; [injection Ha as ->|done].
  cbv zeta.
  destruct (truthy (default VNone (ec2 !! "hostname"))) eqn:Hec2h,
    (config_hostname (agentConfig (self st))) as [name|],
    (socket_gethostname w), (socket_getfqdn w), (truthy aliases);
    try destruct (truthy (VStr name)) eqn:Hname;
    (eexists; split; [reflexivity|]);
    repeat split; try done; intros;
    repeat match goal with
           | H : Done _ = Done _ |- _ => injection H as <-
           | H : Some _ = Some _ |- _ => injection H as <-
           | H : Raised _ = Done _ |- _ => discriminate H
           | H : None = Some _ |- _ => discriminate H
           end;
    try (assert (name = "") as -> by (destruct name; [done|by cbn in Hname]); done);
    repeat (rewrite lookup_insert_ne by done);
    rewrite ?lookup_insert_eq; try done;
    try (rewrite lookup_delete_ne by done; rewrite lookup_insert_eq;
         destruct (ec2 !! "hostname"); done).
Qed.


(** A host on which [socket.gethostname] fails. *)
Lemma hostname_metadata_tolerates_sockets_witness :
  ∃ metadata,
    _get_hostname_metadata unwritable (enter c0) = (Done (VDict metadata), enter c0)
    ∧ metadata !! "hostname" = Some (VStr "host1")
    ∧ metadata !! "socket-fqdn" = Some (VStr "host1.local")
    ∧ metadata !! "agent-hostname" = Some (VStr "host1").
Proof.
  destruct (hostname_metadata_tolerates_sockets unwritable (enter c0) ∅
              (VStr "host1") VNone)
    as (metadata & Hrun & Hh & _ & Hfqdn & Hagent); [reflexivity..|].
  exists metadata. split; [exact Hrun|]. split; [exact Hh|]. split.
  - apply Hfqdn. reflexivity.
  - apply (Hagent "host1"); [reflexivity | discriminate].
Defined.

End Metadata.

(** ** The end of the cycle *)

Section Sending.
Import Collector Scenario.
Local Open Scope py_scope.

Lemma conclude_returns (w : World) (collect_duration : Z) (es : list EmitterStatus.t)
    (st : State) :
  ∃ st', conclude w collect_duration es st = (Done (Some (resolved_payload (locals st))), st')
    ∧ self st' = self st
    ∧ ((∃ e, persist w (check_statuses (locals st)) es (hostname_metadata_cache (self st)) = Raised e) →
       Log EXCEPTION "Error persisting collector status" ∈ trace st').
Proof.
  unfold conclude, try_except, bind, gets, when, log, tell, modify, call, ret.
  cbn [locals self with_trace fst snd].
  destruct (persist w _ _ _) as [[]|e] eqn:Hpersist; cbv beta iota;
    cbn [locals self with_trace fst snd];
    match goal with |- context [orb ?a ?b] => destruct (orb a b) end;
    cbv beta iota; cbn [locals self with_trace fst snd];
    try match goal with |- context [Nat.eqb ?a ?b] => destruct (Nat.eqb a b) end;
    cbv beta iota; cbn [locals self with_trace fst snd];
    (eexists; split; [reflexivity|]); (split; [reflexivity|]);
    intros [e' He']; try discriminate;
    cbn [trace with_trace]; rewrite ?elem_of_app, ?list_elem_of_singleton;
    intuition.
Qed.

(** X12. Sending the payload never raises: it returns the payload as
    resolved before the emitters were called, keeps the emit time in
    [emit_duration] and leaves [run_count] alone; when the status of the
    run cannot be persisted, the failure is only logged. *)
Theorem sending_never_raises (w : World) (collect_duration : Z) (st : State) :
  ∃ st', send_payload w collect_duration st
           = (Done (Some (resolved_payload (locals st))), st')
    ∧ emit_duration (self st') = Some (timer_emit w)
    ∧ run_count (self st') = run_count (self st)
    ∧ ((∀ cs es h, ∃ e, persist w cs es h = Raised e) →
       Log EXCEPTION "Error persisting collector status" ∈ trace st').
Proof.
  unfold send_payload. unfold bind at 1, gets at 1. cbv beta iota.
  unfold bind at 1, gets at 1. cbv beta iota zeta.
  unfold bind at 1, tells at 1, modify at 1. cbv beta iota.
  unfold bind at 1, assign_self at 1, modify at 1. cbv beta iota.
  match goal with
  | |- ∃ st', conclude w collect_duration ?es ?s = _ ∧ _ =>
      destruct (conclude_returns w collect_duration es s) as (st' & Hrun & Hself & Hlog)
  end.
  exists st'. split; [exact Hrun|]. rewrite Hself. split; [reflexivity|].
  split; [reflexivity|]. intros Hraise. apply Hlog. apply Hraise.
Qed.


(** A host on which the status of the run cannot be written. *)
Lemma sending_never_raises_witness :
  ∃ st', send_payload unwritable 7 first_cycle
         = (Done (Some (resolved_payload (locals first_cycle))), st')
    ∧ Log EXCEPTION "Error persisting collector status" ∈ trace st'.
Proof.
  destruct (sending_never_raises unwritable 7 first_cycle)
    as (st' & Hrun & _ & _ & Hlog).
  exists st'. split; [exact Hrun|].
  apply Hlog. intros cs es h. exists (Exception "disk full"). reflexivity.
Defined.

End Sending.
